(** * grpc-tools: the TLS multiplexer and the HAR-recording round-tripper

    A shallow embedding of
      - [internal/tlsmux/peek_conn.go]    (module [tlsmux], peekConn),
      - [internal/tlsmux/mux_listener.go] (module [tlsmux], listener),
      - [internal/tlsmux/tls_mux.go]      (module [tlsmux], New and Close),
      - the listener options              (module [tlsmux], With...Middleware),
      - [grpc-proxy/http_transport.go]    (module [grpc_proxy], RoundTrip),
      - the HAR data model                (module [grpc_proxy], Har...).

    Go values are modelled as the code has them: a slice is a window on a
    backing array with a length and a capacity, [error] is an optional
    message, interfaces are type classes, and every effect (socket reads,
    channel sends, the clock, the HAR file) is threaded explicitly. *)

From Stdlib Require Import ZArith Lia Bool Ascii String.
From Stdlib.Strings Require Import Byte.
From stdpp Require Import base option list strings gmap fin_maps pretty.

Local Open Scope string_scope.
Local Open Scope nat_scope.

(** ** Go runtime: errors, panics and slices *)

Module Go.

(** A Go [error]: [None] is [nil], [Some msg] an error whose [Error()] is [msg]. *)
Definition error := option string.

Definition is_nil {A} (o : option A) : bool :=
  match o with None => true | Some _ => false end.

(** The result of running a piece of Go code that may panic. *)
Inductive outcome (A : Type) : Type :=
| Return (a : A)
| Panic (msg : string).
Arguments Return {A} a.
Arguments Panic {A} msg.

Definition bind {A B} (o : outcome A) (k : A -> outcome B) : outcome B :=
  match o with
  | Return a => k a
  | Panic msg => Panic msg
  end.

(** A slice header over its backing array.  [arr] is the backing array seen
    from the first element of the slice up to the end of its capacity, so
    [cap] is the length of [arr]; [len] is the length of the slice.  The
    nil slice is the header with an empty array and [isnil] set. *)
Record slice (A : Type) : Type := mkSlice {
  arr : list A;
  len : nat;
  isnil : bool
}.
Arguments mkSlice {A} arr len isnil.
Arguments arr {A} s.
Arguments len {A} s.
Arguments isnil {A} s.

Section Slices.
Context {A : Type}.

Definition nilSlice : slice A := mkSlice [] 0 true.

Definition cap (s : slice A) : nat := length (arr s).

  (** The elements of the slice, [s[0], ..., s[len-1]]. *)
Definition elems (s : slice A) : list A := take (len s) (arr s).

  (** [make([]T, n, c)] with the zero value [z]. *)
Definition make (z : A) (n c : nat) : slice A := mkSlice (replicate c z) n false.

  (** [s[lo:hi]]: shares the backing array; the capacity runs to its end.
      Out of range (not [lo <= hi <= cap s]) the Go runtime panics. *)
Definition reslice (s : slice A) (lo hi : nat) : outcome (slice A) :=
    if (lo <=? hi) && (hi <=? cap s)
    then Return (mkSlice (drop lo (arr s)) (hi - lo) (isnil s && (hi =? 0)))
    else Panic "slice bounds out of range".

  (** [copy(dst, src)]: copies [min (len dst) (len src)] elements and
      returns that number together with the destination's new contents. *)
Definition copy (dst : slice A) (src : list A) : slice A * nat :=
    let n := Nat.min (len dst) (length src) in
    (mkSlice (take n src ++ drop n (arr dst)) (len dst) (isnil dst), n).

  (** Storing [data] in the backing array of [s] from index [off] on: what a
      callee that was handed [s[off:...]] and wrote [data] at its start
      leaves behind in [s], whose header is unchanged. *)
Definition write_at (s : slice A) (off : nat) (data : list A) : slice A :=
    mkSlice (take off (arr s) ++ data ++ drop (off + length data) (arr s))
            (len s) (isnil s).
End Slices.
Arguments nilSlice {A}.

End Go.

Import Go.

Abbreviation byte := Byte.byte.

(** The bytes of a string literal. *)
Definition bytes (s : string) : list byte := list_byte_of_string s.

(** ** regexp, as far as the classifier patterns need it *)

Module regexp.

(** Abstract syntax of the patterns.  Capture groups do not change what
    [Match] answers and are not represented. *)
Inductive regexp : Type :=
| RBegin                          (* ^ : at the beginning of the text *)
| RByte (b : byte)                (* a literal byte *)
| RRange (lo hi : byte)           (* [lo-hi] *)
| REmpty                          (* the empty pattern *)
| RCat (r1 r2 : regexp)           (* concatenation *)
| RAlt (r1 r2 : regexp).          (* r1|r2, the operator that binds least *)

(** A literal string. *)
Definition RLit (s : string) : regexp :=
  foldr (fun b r => RCat (RByte b) r) REmpty (bytes s).

(** [r1|r2|...|rn]. *)
Fixpoint RAlts (rs : list regexp) : regexp :=
  match rs with
  | [] => REmpty
  | [r] => r
  | r :: rs' => RAlt r (RAlts rs')
  end.

Definition byte_le (a b : byte) : bool := (Byte.to_N a <=? Byte.to_N b)%N.

(** All ways [r] matches a prefix of [rest], the text from offset [pos] on:
    the offsets and texts that remain after each match. *)
Fixpoint rmatch (r : regexp) (pos : nat) (rest : list byte)
  : list (nat * list byte) :=
  match r with
  | RBegin => if pos =? 0 then [(pos, rest)] else []
  | RByte b =>
      match rest with
      | c :: rest' => if Byte.eqb b c then [(S pos, rest')] else []
      | [] => []
      end
  | RRange lo hi =>
      match rest with
      | c :: rest' =>
          if byte_le lo c && byte_le c hi then [(S pos, rest')] else []
      | [] => []
      end
  | REmpty => [(pos, rest)]
  | RCat r1 r2 =>
      flat_map (fun pr => rmatch r2 (fst pr) (snd pr)) (rmatch r1 pos rest)
  | RAlt r1 r2 => rmatch r1 pos rest ++ rmatch r2 pos rest
  end.

Fixpoint search (r : regexp) (pos : nat) (rest : list byte) : bool :=
  match rmatch r pos rest with
  | _ :: _ => true
  | [] =>
      match rest with
      | [] => false
      | _ :: rest' => search r (S pos) rest'
      end
  end.

(** [func (re *Regexp) Match(b []byte) bool]: whether [b] contains any match
    of the pattern. *)
Definition Match (r : regexp) (b : list byte) : bool := search r 0 b.

End regexp.

(** ** internal/tlsmux *)

Module tlsmux.

(** [net.Conn], as far as this package uses it.  [Read r k] is
    [r.Read(buf)] for a buffer of length [k]: the connection afterwards, the
    bytes stored at the start of the buffer, and the error. *)
Class NetConn (R : Type) := {
  Conn_Read : R -> nat -> R * list byte * error;
  Conn_Read_le : forall r k, length (snd (fst (Conn_Read r k))) <= k
}.

(** The interface [PeekConn] adds [Peek] to a connection: the receiver
    afterwards, the caller's buffer afterwards, the length seen, the error. *)
Class PeekConn (P : Type) := {
  Peek : P -> slice byte -> P * slice byte * nat * error
}.

(** [interface { OriginalDestination() (tls bool, addr string) }]: [None]
    when the dynamic type of the value has no such method. *)
Class ProxiedConnection (C : Type) :=
  OriginalDestination : C -> option (bool * string).

(** *** peek_conn.go *)

Section PeekConn.
Context {R : Type} `{NetConn R}.

Record peekConn : Type := mkPeekConn {
    Conn : R;
    peeked : slice byte
  }.

Definition NewPeekConn (c : R) : peekConn :=
    {| Conn := c; peeked := nilSlice |}.

Definition Unwarp (p : peekConn) : R := Conn p.

  (** [func (p *peekConn) Peek(b []byte) (n int, err error)].
      Returns the receiver afterwards, the caller's buffer afterwards, [n]
      and [err]. *)
Definition peekConn_Peek (p : peekConn) (b : slice byte)
    : peekConn * slice byte * nat * error :=
    let size := cap b in
    (* if cap(p.peeked) < size { peek := make([]byte, 0, size);
         if p.peeked != nil { copy(peek, p.peeked) }; p.peeked = peek } *)
    let p1 :=
      if cap (peeked p) <? size then
        let peek := make Byte.x00 0 size in
        let peek :=
          if negb (isnil (peeked p)) then fst (copy peek (elems (peeked p)))
          else peek in
        {| Conn := Conn p; peeked := peek |}
      else p in
    (* if len(p.peeked) < size { _, err = p.Conn.Read(p.peeked[len(p.peeked):size]) } *)
    let '(p2, err) :=
      if len (peeked p1) <? size then
        let '(c', data, e) := Conn_Read (Conn p1) (size - len (peeked p1)) in
        ({| Conn := c';
            peeked := write_at (peeked p1) (len (peeked p1)) data |}, e)
      else (p1, None) in
    (* copy(b, p.peeked); return len(p.peeked), err *)
    let b' := fst (copy b (elems (peeked p2))) in
    (p2, b', len (peeked p2), err).

  (** [func (p *peekConn) Read(b []byte) (int, error)]. *)
Definition peekConn_Read (p : peekConn) (b : slice byte)
    : peekConn * slice byte * nat * error :=
    if isnil (peeked p) then
      let '(c', data, e) := Conn_Read (Conn p) (len b) in
      ({| Conn := c'; peeked := peeked p |}, write_at b 0 data, length data, e)
    else
      let size := len b in
      let '(peek, rest) :=
        if size <? len (peeked p) then
          (take size (elems (peeked p)),
           mkSlice (drop size (arr (peeked p))) (len (peeked p) - size) false)
        else (elems (peeked p), nilSlice) in
      let b1 := fst (copy b peek) in
      let size := length peek in
      let '(c', data, e) := Conn_Read (Conn p) (len b - size) in
      ({| Conn := c'; peeked := rest |}, write_at b1 size data,
       length data + size, e).

  (** The bytes a call left in the caller's buffer: [b[:n]]. *)
Definition delivered (r : peekConn * slice byte * nat * error) : list byte :=
    take (snd (fst r)) (arr (snd (fst (fst r)))).
End PeekConn.
Arguments peekConn R : clear implicits.

(** A concrete connection: the segments still to arrive from the peer.  A
    read returns bytes of the first segment only, as many as fit, and
    reports [EOF] once all segments are gone. *)
Definition segConn := list (list byte).

Definition segConn_Read (r : segConn) (k : nat) : segConn * list byte * error :=
  match r with
  | [] => ([], [], Some "EOF")
  | seg :: rest =>
      if length seg <=? k then (rest, seg, None)
      else (drop k seg :: rest, take k seg, None)
  end.

Lemma segConn_Read_le (r : segConn) (k : nat) :
  length (snd (fst (segConn_Read r k))) <= k.
Proof.
  destruct r as [|seg rest]; simpl; [lia|].
  destruct (length seg <=? k) eqn:E; simpl.
  - apply Nat.leb_le in E. lia.
  - rewrite length_take. lia.
Qed.

#[export] Instance segConn_NetConn : NetConn segConn :=
  {| Conn_Read := segConn_Read; Conn_Read_le := segConn_Read_le |}.


#[export] Instance peekConn_PeekConn {R} `{NetConn R} : PeekConn (peekConn R) :=
  {| Peek := peekConn_Peek |}.

(** [*peekConn] embeds the interface [net.Conn], so its method set is that of
    [net.Conn] plus [Peek] and [Unwarp]: it has no [OriginalDestination]. *)
#[export] Instance peekConn_Proxied {R} : ProxiedConnection (peekConn R) :=
  fun _ => None.

#[export] Instance segConn_Proxied : ProxiedConnection segConn :=
  fun _ => None.


(** *** mux_listener.go and the listener options *)

Section Listener.
  (** [R]: the connections the wrapped listener hands out; [P]: the values
      that implement [PeekConn]. *)
Context {R P : Type} `{PeekConn P} `{ProxiedConnection R} `{ProxiedConnection P}.

  (** A [net.Conn] flowing through the middleware chain, by dynamic type. *)
Inductive conn : Type :=
  | Raw (r : R)                 (* a connection that is no PeekConn *)
  | Peeking (p : P)             (* a PeekConn *)
  | Pattern (p : P) (t : Z).    (* *patternConn{PeekConn: p, t: t} *)

  (** What the middlewares act on besides the connection: the two
      connection channels of [New], the transparent forwards that were
      started, and the readings [time.Now()] is still to return. *)
Record World : Type := mkWorld {
    tlsConns : list conn;
    nonTLSConns : list conn;
    forwards : list (conn * (bool * string));
    clock : list Z
  }.

Definition time_Now (w : World) : Z * World :=
    match clock w with
    | [] => (0%Z, w)
    | t :: rest =>
        (t, {| tlsConns := tlsConns w; nonTLSConns := nonTLSConns w;
               forwards := forwards w; clock := rest |})
    end.

  (** [type ListenerMiddleware func(net.Conn) (net.Conn, error)].
      "If the return value net.Conn is null, intercepts the connection". *)
Definition ListenerMiddleware : Type :=
    conn -> World -> outcome ((option conn * error) * World).

Record listener (L : Type) : Type := mkListener {
    Listener : L;
    enable : bool;                        (* features.peekConn.enable *)
    middles : list ListenerMiddleware
  }.
Arguments mkListener {L}.
Arguments Listener {L}.
Arguments enable {L}.
Arguments middles {L}.

Definition ListenerOptions (L : Type) : Type := listener L -> listener L.

Definition WithPeekConn {L} : ListenerOptions L :=
    fun l => mkListener (Listener l) true (middles l).

Definition WithMiddleware {L} (middle : ListenerMiddleware) : ListenerOptions L :=
    fun l => mkListener (Listener l) (enable l) (middles l ++ [middle]).

Definition NewListener {L} (listen : L) (opts : list (ListenerOptions L)) : listener L :=
    fold_left (fun l opt => opt l) opts (mkListener listen false []).

  (** The inner loop of [WithPatternMiddleware]:
      [for n < size && err == nil { n, err = conn.Peek(data[:size]); ... }].
      It ends after one pass when [timeout] is 0, and otherwise once a clock
      reading is after the deadline; [ticks] are the readings of
      [time.Now()] to come, and the wait is cut off when they run out. *)
Fixpoint peekLoop (timeout deadline : Z) (size : nat) (ticks : list Z)
      (p : P) (data : slice byte) (n : nat) (err : error)
    : P * slice byte * nat * error * list Z :=
    if (n <? size) && is_nil err then
      let '(p', b', n', err') := Peek p (mkSlice (arr data) size false) in
      let data' := mkSlice (arr b') (len data) false in
      if (timeout =? 0)%Z then (p', data', n', err', ticks)
      else
        match ticks with
        | [] => (p', data', n', err', [])
        | now :: ticks' =>
            if (deadline <? now)%Z then (p', data', n', err', ticks')
            else peekLoop timeout deadline size ticks' p' data' n' err'
        end
    else (p, data, n, err, ticks).

  (** The loop [for _, size := range peekSizes] of [WithPatternMiddleware]. *)
Fixpoint patternLoop (pattern : regexp.regexp) (timeout : Z)
      (middle : ListenerMiddleware) (t : Z) (peekSizes : list nat)
      (p : P) (data : slice byte) (w : World)
    : outcome ((option conn * error) * World) :=
    match peekSizes with
    | [] => Return ((Some (Pattern p t), None), w)
    | size :: sizes' =>
        let data := if cap data <? size then make Byte.x00 size size else data in
        let deadline := (t + timeout)%Z in
        let '(p', data', n, _, ticks') :=
          peekLoop timeout deadline size (clock w) p data 0 None in
        let w' := {| tlsConns := tlsConns w; nonTLSConns := nonTLSConns w;
                     forwards := forwards w; clock := ticks' |} in
        (* this is just a peek, so ignore any errors *)
        if n <? size then Return ((Some (Pattern p' t), None), w')
        else if regexp.Match pattern (elems data') then middle (Pattern p' t) w'
        else patternLoop pattern timeout middle t sizes' p' data' w'
    end.

  (** The middleware that [WithPatternMiddleware] installs. *)
Definition patternMiddleware (pattern : regexp.regexp) (peekSizes : list nat)
      (timeout : Z) (middle : ListenerMiddleware) : ListenerMiddleware :=
    fun c w =>
      bind
        match c with
        | Pattern p t => Return (p, t, w)
        | Peeking p => let '(t, w') := time_Now w in Return (p, t, w')
        | Raw _ => Panic "interface conversion: net.Conn is not tlsmux.PeekConn"
        end
        (fun ptw =>
           let '(p, t, w) := ptw in
           patternLoop pattern timeout middle t peekSizes p
                       (make Byte.x00 8 8) w).

Definition WithPatternMiddleware {L} (pattern : regexp.regexp)
      (peekSizes : list nat) (timeout : Z) (middle : ListenerMiddleware)
    : ListenerOptions L :=
    WithMiddleware (patternMiddleware pattern peekSizes timeout middle).

  (** [^\x16\x03[\x00-\x04]]: TLS handshake byte + version number. *)
Definition tlsPattern : regexp.regexp :=
    regexp.RCat regexp.RBegin
      (regexp.RCat (regexp.RByte Byte.x16)
         (regexp.RCat (regexp.RByte Byte.x03) (regexp.RRange Byte.x00 Byte.x04))).

Definition WithTLSMiddleware {L} (middle : ListenerMiddleware) (timeout : Z)
    : ListenerOptions L :=
    WithPatternMiddleware tlsPattern [3] timeout middle.

  (** [^(CONNECT)|(DELETE)|(GET)|(HEAD)|(OPTIONS)|(PATCH)|(POST)|(PUT)|(TRACE) ]:
      alternation binds least, so [^] belongs to the first alternative only
      and the space to the last one only. *)
Definition httpPattern : regexp.regexp :=
    regexp.RAlts
      [ regexp.RCat regexp.RBegin (regexp.RLit "CONNECT");
        regexp.RLit "DELETE"; regexp.RLit "GET"; regexp.RLit "HEAD";
        regexp.RLit "OPTIONS"; regexp.RLit "PATCH"; regexp.RLit "POST";
        regexp.RLit "PUT";
        regexp.RCat (regexp.RLit "TRACE") (regexp.RLit " ") ].

Definition WithHTTPMiddleware {L} (middle : ListenerMiddleware) (timeout : Z)
    : ListenerOptions L :=
    WithPatternMiddleware httpPattern [4; 5; 6; 7; 8] timeout middle.

  (** The loop [for _, middle := range m.middles] of [listener.Accept].  The
      result [(None, Some e)] makes [Accept] return the error, [(None, None)]
      makes it skip the connection. *)
Fixpoint runMiddles (ms : list ListenerMiddleware) (c : conn) (w : World)
    : outcome ((option conn * error) * World) :=
    match ms with
    | [] => Return ((Some c, None), w)
    | middle :: ms' =>
        bind (middle c w) (fun r =>
          let '((c', err), w') := r in
          match err with
          | Some e => Return ((None, Some e), w')
          | None =>
              match c' with
              | None => Return ((None, None), w')     (* skip this connection *)
              | Some c'' => runMiddles ms' c'' w'
              end
          end)
    end.

  (** *** tls_mux.go: the classifiers installed by [New] *)

  (** [func(c net.Conn) (net.Conn, error) { tlsConns <- c; return nil, nil }] *)
Definition sendTLS : ListenerMiddleware :=
    fun c w =>
      Return ((None, None),
              {| tlsConns := tlsConns w ++ [c]; nonTLSConns := nonTLSConns w;
                 forwards := forwards w; clock := clock w |}).

  (** [func(c net.Conn) (net.Conn, error) { nonTLSConns <- c; return nil, nil }] *)
Definition sendNonTLS : ListenerMiddleware :=
    fun c w =>
      Return ((None, None),
              {| tlsConns := tlsConns w; nonTLSConns := nonTLSConns w ++ [c];
                 forwards := forwards w; clock := clock w |}).

  (** [c.(proxiedConnection)]: a [*patternConn] embeds the interface
      [PeekConn] and so has the methods of [PeekConn] only. *)
Definition asProxied (c : conn) : option (bool * string) :=
    match c with
    | Raw r => OriginalDestination r
    | Peeking p => OriginalDestination p
    | Pattern _ _ => None
    end.

  (** The third middleware of [New]: a proxied connection is spliced to its
      original destination by a goroutine of its own, any other one is
      passed on. *)
Definition fallback : ListenerMiddleware :=
    fun c w =>
      match asProxied c with
      | None => Return ((Some c, None), w)
      | Some dst =>
          Return ((None, None),
                  {| tlsConns := tlsConns w; nonTLSConns := nonTLSConns w;
                     forwards := forwards w ++ [(c, dst)]; clock := clock w |})
      end.

  (** [opts] of [New]. *)
Definition New_opts {L} : list (ListenerOptions L) :=
    [ WithPeekConn;
      WithTLSMiddleware sendTLS 0;
      WithHTTPMiddleware sendNonTLS 0;
      WithMiddleware fallback ].

  (** [hlisten := NewListener(listener, opts...)] *)
Definition New_hlisten {L} (l : L) : listener L := NewListener l New_opts.
End Listener.
Arguments conn R P : clear implicits.
Arguments World R P : clear implicits.
Arguments ListenerMiddleware R P : clear implicits.
Arguments listener R P L : clear implicits.
Arguments mkListener {R P L} Listener enable middles.
Arguments Listener {R P L} l.
Arguments enable {R P L} l.
Arguments middles {R P L} l.


(** [func (m *listener) Accept() (net.Conn, error)].  The wrapped listener is
    the list of what its [Accept] will return, call after call; when the
    list is used up the call waits ([Blocked]). *)
Section Accept.
Context {R : Type} `{NetConn R} `{ProxiedConnection R}.

Inductive acceptResult : Type :=
  | Accepted (c : conn R (peekConn R))
  | Failed (e : string)
  | Blocked.

Fixpoint acceptLoop (enable : bool)
      (middles : list (ListenerMiddleware R (peekConn R)))
      (pending : list (R + string)) (w : World R (peekConn R))
    : outcome (acceptResult * list (R + string) * World R (peekConn R)) :=
    match pending with
    | [] => Return (Blocked, [], w)
    | inr e :: rest => Return (Failed e, rest, w)
    | inl r :: rest =>
        let c := if enable then Peeking (NewPeekConn r) else Raw r in
        bind (runMiddles middles c w) (fun res =>
          let '((c', err), w') := res in
          match err with
          | Some e => Return (Failed e, rest, w')
          | None =>
              match c' with
              | None => acceptLoop enable middles rest w'   (* skip this connection *)
              | Some c'' => Return (Accepted c'', rest, w')
              end
          end)
    end.

Definition Accept (m : listener R (peekConn R) (list (R + string)))
      (w : World R (peekConn R))
    : outcome (acceptResult * listener R (peekConn R) (list (R + string))
               * World R (peekConn R)) :=
    bind (acceptLoop (enable m) (middles m) (Listener m) w) (fun res =>
      let '(a, rest, w') := res in
      Return (a, mkListener rest (enable m) (middles m), w')).
End Accept.

(** *** tls_mux.go: closing the two listeners of [New] *)

(** [sync.Once]. *)
Record Once : Type := mkOnce { done : bool }.

Definition Once_Do {S : Type} (o : Once) (f : S -> S) (s : S) : Once * S :=
  if done o then (o, s) else (mkOnce true, f s).

(** [net.Listener.Close]. *)
Class NetListener (L : Type) := Listener_Close : L -> L * error.

Section Close.
Context {L : Type} `{NetListener L}.

  (** What the two [tlsMuxListener] values of [New] share: the wrapped
      listener and [closer].  [closeCalls] counts the calls of
      [c.Listener.Close()] made so far. *)
Record muxShared : Type := mkShared {
    shared_Listener : L;
    closer : Once;
    closeCalls : nat
  }.

  (** [New]: [closer := &sync.Once{}] over the [listener] it was given. *)
Definition New_shared (listener : L) : muxShared :=
    {| shared_Listener := listener; closer := mkOnce false; closeCalls := 0 |}.

  (** [func (c *tlsMuxListener) Close() error]:
      [c.close.Do(func() { err = c.Listener.Close() }); return err]. *)
Definition tlsMuxListener_Close (s : muxShared) : muxShared * error :=
    let '(o, (l, n, err)) :=
      Once_Do (closer s)
        (fun st : L * nat * error =>
           let '(l, n, _) := st in
           let '(l', e) := Listener_Close l in (l', S n, e))
        (shared_Listener s, closeCalls s, None) in
    ({| shared_Listener := l; closer := o; closeCalls := n |}, err).

  (** The two listeners [New] returns. *)
Inductive derived : Type := NonTLSListener | TLSListener.

  (** [Close] of a derived listener.  The TLS one is [tls.NewListener(inner,
      config)], which embeds [inner] and so closes by [inner.Close()]. *)
Definition Close (d : derived) (s : muxShared) : muxShared * error :=
    match d with
    | NonTLSListener => tlsMuxListener_Close s
    | TLSListener => tlsMuxListener_Close s
    end.

  (** A sequence of [Close] calls, in order. *)
Definition closeAll (ds : list derived) (s : muxShared) : muxShared :=
    fold_left (fun s d => fst (Close d s)) ds s.
End Close.
Arguments muxShared L : clear implicits.

(** A listener that counts how often it was closed and, like a socket,
    reports an error from the second time on. *)
Record countingListener : Type := { closed : nat }.

#[export] Instance countingListener_NetListener : NetListener countingListener :=
  fun l =>
    ({| closed := S (closed l) |},
     if closed l =? 0 then None else Some "use of closed network connection").

End tlsmux.

(** ** Library functions of net/textproto, net/http, net/url and strings *)

Module lib.

Definition is_upper (c : ascii) : bool :=
  (65 <=? nat_of_ascii c) && (nat_of_ascii c <=? 90).
Definition is_lower (c : ascii) : bool :=
  (97 <=? nat_of_ascii c) && (nat_of_ascii c <=? 122).
Definition is_digit (c : ascii) : bool :=
  (48 <=? nat_of_ascii c) && (nat_of_ascii c <=? 57).
Definition to_upper (c : ascii) : ascii :=
  if is_lower c then ascii_of_nat (nat_of_ascii c - 32) else c.
Definition to_lower (c : ascii) : ascii :=
  if is_upper c then ascii_of_nat (nat_of_ascii c + 32) else c.

(** [strings.ToLower], on ASCII letters. *)
Fixpoint ToLower (s : string) : string :=
  match s with
  | EmptyString => EmptyString
  | String c rest => String (to_lower c) (ToLower rest)
  end.

(** [strings.Join]. *)
Definition Join (elems : list string) (sep : string) : string :=
  String.concat sep elems.

(** [textproto.validHeaderFieldByte]: the token characters of RFC 7230. *)
Definition validHeaderFieldByte (c : ascii) : bool :=
  is_upper c || is_lower c || is_digit c ||
  existsb (Ascii.eqb c) (list_ascii_of_string "!#$%&'*+-.^_`|~").

(** The rewriting loop of [textproto.canonicalMIMEHeaderKey]: upper case for
    the first letter and for a letter after a dash, lower case elsewhere. *)
Fixpoint canonicalize (upper : bool) (s : string) : string :=
  match s with
  | EmptyString => EmptyString
  | String c rest =>
      let c' := if upper then to_upper c else to_lower c in
      String c' (canonicalize (Ascii.eqb c' "-") rest)
  end.

(** [textproto.CanonicalMIMEHeaderKey]: a key with a byte that is not a
    token character is returned unchanged. *)
Definition CanonicalMIMEHeaderKey (s : string) : string :=
  if forallb validHeaderFieldByte (list_ascii_of_string s)
  then canonicalize true s else s.

(** [http.Header], a [map[string][]string]. *)
Abbreviation Header := (gmap string (list string)).

Definition Header_Values (h : Header) (key : string) : list string :=
  default [] (h !! CanonicalMIMEHeaderKey key).

Definition Header_Get (h : Header) (key : string) : string :=
  match Header_Values h key with
  | [] => ""
  | v :: _ => v
  end.

Definition Header_Set (h : Header) (key value : string) : Header :=
  <[CanonicalMIMEHeaderKey key := [value]]> h.

Definition Header_Add (h : Header) (key value : string) : Header :=
  <[CanonicalMIMEHeaderKey key := (Header_Values h key ++ [value])%list]> h.

Definition Header_Del (h : Header) (key : string) : Header :=
  delete (CanonicalMIMEHeaderKey key) h.

Definition ishex (c : ascii) : bool :=
  is_digit c
  || ((97 <=? nat_of_ascii c) && (nat_of_ascii c <=? 102))
  || ((65 <=? nat_of_ascii c) && (nat_of_ascii c <=? 70)).

Definition unhex (c : ascii) : nat :=
  if is_digit c then nat_of_ascii c - 48
  else if (97 <=? nat_of_ascii c) && (nat_of_ascii c <=? 102)
       then nat_of_ascii c - 97 + 10
  else if (65 <=? nat_of_ascii c) && (nat_of_ascii c <=? 70)
       then nat_of_ascii c - 65 + 10
  else 0.

(** The first pass of [url.unescape]: every [%] is followed by two hex
    digits. *)
Fixpoint escapes_ok (s : string) : bool :=
  match s with
  | EmptyString => true
  | String c rest =>
      if Ascii.eqb c "%" then
        match rest with
        | String a (String b rest') => ishex a && ishex b && escapes_ok rest'
        | _ => false
        end
      else escapes_ok rest
  end.

(** The second pass of [url.unescape] in the mode [encodeQueryComponent]. *)
Fixpoint unescape_bytes (s : string) : string :=
  match s with
  | EmptyString => EmptyString
  | String c rest =>
      if Ascii.eqb c "%" then
        match rest with
        | String a (String b rest') =>
            String (ascii_of_nat (unhex a * 16 + unhex b)) (unescape_bytes rest')
        | _ => EmptyString
        end
      else if Ascii.eqb c "+" then String " " (unescape_bytes rest)
      else String c (unescape_bytes rest)
  end.

(** [url.QueryUnescape]: on a malformed escape the string returned is empty. *)
Definition QueryUnescape (s : string) : string * error :=
  if escapes_ok s then (unescape_bytes s, None)
  else ("", Some "invalid URL escape").

(** [net.IP], a byte slice of length 4 or 16. *)
Abbreviation IP := (list byte).

(** [func (ip IP) To4() IP]. *)
Definition To4 (ip : IP) : option IP :=
  match ip with
  | [_; _; _; _] => Some ip
  | [z0; z1; z2; z3; z4; z5; z6; z7; z8; z9; f0; f1; a; b; c; d] =>
      if forallb (Byte.eqb Byte.x00) [z0; z1; z2; z3; z4; z5; z6; z7; z8; z9]
         && Byte.eqb f0 Byte.xff && Byte.eqb f1 Byte.xff
      then Some [a; b; c; d] else None
  | _ => None
  end.

Definition dec (b : byte) : string := pretty (Byte.to_N b).

(** [func (ip IP) String() string] for an address with a 4-byte form; the
    text of any other address is [ipv6_text]. *)
Definition IP_String (ipv6_text : IP -> string) (ip : IP) : string :=
  match To4 ip with
  | Some [a; b; c; d] => dec a +:+ "." +:+ dec b +:+ "." +:+ dec c +:+ "." +:+ dec d
  | _ => ipv6_text ip
  end.

End lib.

(** ** grpc-proxy: the HAR data model and the recording round-tripper *)

Module grpc_proxy.
Import lib.

(** *** net/http values *)

Module URL.
Record t : Type := mk { Scheme : string; Host : string; Path : string; RawQuery : string }.
End URL.

Module Cookie.
Record t : Type := mk {
    Name : string; Value : string; Path : string; Domain : string;
    Expires : Z; HttpOnly : bool; Secure : bool
  }.
End Cookie.

(** [*http.Request].  [Body] is the content still to be read from the body,
    [None] for a nil body. *)
Module Request.
Record t : Type := mk {
    Method : string;
    URL : URL.t;
    Proto : string;
    Header : lib.Header;
    Body : option string;
    ContentLength : Z;
    PostForm : gmap string (list string)
  }.
End Request.

(** [*http.Response]. *)
Module Response.
Record t : Type := mk {
    Status : string;
    StatusCode : Z;
    Proto : string;
    ProtoMajor : Z;
    ProtoMinor : Z;
    Header : lib.Header;
    Body : option string;
    ContentLength : Z;
    TransferEncoding : list string;
    Close : bool;
    Request : option Request.t
  }.
End Response.

(** *** The HAR records *)

Module HarNameValuePair.
Record t : Type := mk { Name : string; Value : string }.
End HarNameValuePair.

Module HarCookie.
Record t : Type := mk {
    Name : string; Value : string; Path : string; Domain : string;
    Expires : Z; HttpOnly : bool; Secure : bool
  }.
End HarCookie.

Module HarPostDataParam.
Record t : Type := mk {
    Name : string; Value : string; FileName : string; ContentType : string
  }.
End HarPostDataParam.

Module HarPostData.
Record t : Type := mk {
    MimeType : string; Params : list HarPostDataParam.t; Text : string
  }.
End HarPostData.

Module HarContent.
Record t : Type := mk {
    Size : Z; Compression : Z; MimeType : string; Text : string; Encoding : string
  }.
End HarContent.

Module HarRequest.
Record t : Type := mk {
    Method : string;
    Url : string;
    HttpVersion : string;
    Cookies : list HarCookie.t;
    Headers : list HarNameValuePair.t;
    QueryString : list HarNameValuePair.t;
    PostData : option HarPostData.t;
    BodySize : Z;
    HeadersSize : Z
  }.
End HarRequest.

Module HarResponse.
Record t : Type := mk {
    Status : Z;
    StatusText : string;
    HttpVersion : string;
    Cookies : list HarCookie.t;
    Headers : list HarNameValuePair.t;
    Content : option HarContent.t;
    RedirectUrl : string;
    BodySize : Z;
    HeadersSize : Z
  }.
End HarResponse.

(** The timings are [float64] values obtained from whole milliseconds; they
    are kept as integers. *)
Module HarTimings.
Record t : Type := mk {
    Blocked : Z; Dns : Z; Ssl : Z; Connect : Z; Send : Z; Wait : Z; Receive : Z
  }.
Definition zero : t := mk 0 0 0 0 0 0 0.
End HarTimings.

(** [HarCache] holds two nil pointers throughout and is left out. *)
Module HarEntry.
Record t : Type := mk {
    ServerIPAddress : string;
    PageRef : string;
    StartedDateTime : Z;           (* HarTime, in nanoseconds *)
    Time : Z;
    Request : option HarRequest.t;
    Response : option HarResponse.t;
    Timings : HarTimings.t;
    ServerIpAddress : string;
    Connection : string
  }.
  (** [new(HarEntry)] *)
Definition zero : t := mk "" "" 0 0 None None HarTimings.zero "" "".
End HarEntry.

Module HarCreator.
Record t : Type := mk { Name : string; Version : string }.
End HarCreator.

(** [Pages] is always empty and kept as its length. *)
Module HarLog.
Record t : Type := mk {
    Version : string;
    Creator : HarCreator.t;
    Pages : nat;
    Entries : slice HarEntry.t
  }.
End HarLog.

Module Har.
Record t : Type := mk { Log : HarLog.t }.
End Har.

Definition startingEntrySize : nat := 1000.

Definition makeNewEntries : slice HarEntry.t :=
  make HarEntry.zero 0 startingEntrySize.

Definition newHarLog : HarLog.t :=
  {| HarLog.Version := "1.2";
     HarLog.Creator := {| HarCreator.Name := "GoHarProxy"; HarCreator.Version := "0.1" |};
     HarLog.Pages := 0;
     HarLog.Entries := makeNewEntries |}.

(** [func (harLog *HarLog) addEntry(entry ...HarEntry)].  The closing
    [log.Println("Added entry ", entry[0].Request.Url)] panics on an empty
    [entry] and on a nil [Request]. *)
Definition addEntry (harLog : HarLog.t) (entry : list HarEntry.t) : outcome HarLog.t :=
  let entries := HarLog.Entries harLog in
  let m := len entries in
  let n := m + length entry in
  let entries :=
    if cap entries <? n then      (* if necessary, reallocate *)
      let newEntries := make HarEntry.zero ((n + 1) * 2) ((n + 1) * 2) in
      fst (copy newEntries (elems entries))
    else entries in
  bind (reslice entries 0 n) (fun entries =>
    (* copy(entries[m:n], entry) *)
    let entries := write_at entries m (take (n - m) entry) in
    match entry with
    | [] => Panic "index out of range [0] with length 0"
    | e0 :: _ =>
        match HarEntry.Request e0 with
        | None => Panic "invalid memory address or nil pointer dereference"
        | Some _ =>
            Return {| HarLog.Version := HarLog.Version harLog;
                      HarLog.Creator := HarLog.Creator harLog;
                      HarLog.Pages := HarLog.Pages harLog;
                      HarLog.Entries := entries |}
        end
    end).

Definition captureContent : bool := true.

Definition calcHeaderSize (header : lib.Header) : Z :=
  Z.of_nat
    (foldr (fun kv headerSize =>
              headerSize + (String.length (fst kv) + 2)
              + foldr (fun v acc => acc + String.length v) 0 (snd kv))
           0 (map_to_list header)).

(** [parseStringArrMap]: the pairs are stored by index in a slice made with
    the length of the map; the order is that of the iteration over the map. *)
Definition parseStringArrMap (stringArrMap : gmap string (list string))
  : list HarNameValuePair.t :=
  let harQueryString :=
    replicate (size stringArrMap) (HarNameValuePair.mk "" "") in
  snd (foldl
         (fun st kv =>
            let '(index, harQueryString) := st in
            let escapedKey := fst (QueryUnescape (fst kv)) in
            let escapedValues := fst (QueryUnescape (Join (snd kv) ",")) in
            let harNameValuePair :=
              {| HarNameValuePair.Name := escapedKey;
                 HarNameValuePair.Value := escapedValues |} in
            (S index, <[index := harNameValuePair]> harQueryString))
         (0, harQueryString) (map_to_list stringArrMap)).

Definition parseCookies (cookies : list Cookie.t) : list HarCookie.t :=
  map (fun cookie =>
         {| HarCookie.Name := Cookie.Name cookie;
            HarCookie.Domain := Cookie.Domain cookie;
            HarCookie.Expires := Cookie.Expires cookie;
            HarCookie.HttpOnly := Cookie.HttpOnly cookie;
            HarCookie.Path := Cookie.Path cookie;
            HarCookie.Secure := Cookie.Secure cookie;
            HarCookie.Value := Cookie.Value cookie |})
      cookies.

(** [parsePostData]: the request afterwards has a body that yields the same
    content again. *)
Definition parsePostData (req : Request.t) : option HarPostData.t * Request.t :=
  let params :=
    map (fun kv => {| HarPostDataParam.Name := fst kv;
                      HarPostDataParam.Value := Join (snd kv) ",";
                      HarPostDataParam.FileName := "";
                      HarPostDataParam.ContentType := "" |})
        (map_to_list (Request.PostForm req)) in
  let text := default "" (Request.Body req) in
  (Some {| HarPostData.MimeType := Header_Get (Request.Header req) "Content-Type";
           HarPostData.Params := params;
           HarPostData.Text := text |},
   req).


(** *** http_transport.go *)

Record HTTPTransport : Type := mkHTTPTransport {
  Har_ : Har.t;          (* the field Har *)
  harFile : string
}.

Definition NewHTTPTransport (harFile : string) : HTTPTransport :=
  {| Har_ := {| Har.Log := newHarLog |}; harFile := harFile |}.

Definition create502Response (req : Request.t) (err : string) : Response.t :=
  {| Response.Status := "";
     Response.StatusCode := 502;        (* http.StatusBadGateway *)
     Response.Proto := "";
     Response.ProtoMajor := 1;
     Response.ProtoMinor := 1;
     Response.Request := Some req;
     Response.Header := {[ "X-Request-Error" := [err] ]};
     Response.ContentLength := 0;
     Response.TransferEncoding := [];
     Response.Body := Some "";
     Response.Close := true |}.

(** What one call of [RoundTrip] leaves behind. *)
Record RoundTripResult : Type := mkResult {
  rt_resp : Response.t;                 (* resp *)
  rt_err : error;                       (* err *)
  rt_forwarded : Request.t;             (* the request given to the transport *)
  rt_m : HTTPTransport;                 (* the receiver afterwards *)
  rt_written : option (string * Har.t)  (* ioutil.WriteFile: path, value marshalled *)
}.

Section RoundTripper.
  (** The upstream transport: the response or the error of
      [m.Transport.RoundTrip(req)]. *)
Variable transport : Request.t -> Response.t + string.
  (** [clock k]: the wall clock, in nanoseconds, at the [k]-th time the call
      looks at it. *)
Variable clock : nat -> Z.
  (** [Request.Cookies], [Response.Cookies], [URL.String] and [URL.Query]
      of net/http and net/url. *)
Variable readCookies : lib.Header -> list Cookie.t.
Variable readSetCookies : lib.Header -> list Cookie.t.
Variable URL_String : URL.t -> string.
Variable URL_Query : URL.t -> gmap string (list string).
  (** The decoders, applied to the whole body: the decoded text and how many
      bytes of the body they read.  [gzip.NewReader] may fail on the
      header, after reading some bytes. *)
Variable gzip_reader : string -> nat + (string * nat).
Variable flate_reader : string -> string * nat.
  (** [net.SplitHostPort], [net.ParseIP], [net.LookupIP] ([None]: an error)
      and the text of an address without a 4-byte form. *)
Variable SplitHostPort : string -> option (string * string).
Variable ParseIP : string -> option IP.
Variable LookupIP : string -> option (list IP).
Variable ipv6_text : IP -> string.

  (** [parseRequest], with the request afterwards. *)
Definition parseRequest (req : option Request.t)
    : option HarRequest.t * option Request.t :=
    match req with
    | None => (None, None)
    | Some req =>
        let harRequest :=
          {| HarRequest.Method := Request.Method req;
             HarRequest.Url := URL_String (Request.URL req);
             HarRequest.HttpVersion := Request.Proto req;
             HarRequest.Cookies := parseCookies (readCookies (Request.Header req));
             HarRequest.Headers := parseStringArrMap (Request.Header req);
             HarRequest.QueryString := parseStringArrMap (URL_Query (Request.URL req));
             HarRequest.PostData := None;
             HarRequest.BodySize := Request.ContentLength req;
             HarRequest.HeadersSize := calcHeaderSize (Request.Header req) |} in
        if captureContent
           && (String.eqb (Request.Method req) "POST"
               || String.eqb (Request.Method req) "PUT")
        then
          let '(postData, req') := parsePostData req in
          (Some {| HarRequest.Method := HarRequest.Method harRequest;
                   HarRequest.Url := HarRequest.Url harRequest;
                   HarRequest.HttpVersion := HarRequest.HttpVersion harRequest;
                   HarRequest.Cookies := HarRequest.Cookies harRequest;
                   HarRequest.Headers := HarRequest.Headers harRequest;
                   HarRequest.QueryString := HarRequest.QueryString harRequest;
                   HarRequest.PostData := postData;
                   HarRequest.BodySize := HarRequest.BodySize harRequest;
                   HarRequest.HeadersSize := HarRequest.HeadersSize harRequest |},
           Some req')
        else (Some harRequest, Some req)
    end.

Definition withBody (resp : Response.t) (body : option string) : Response.t :=
    {| Response.Status := Response.Status resp;
       Response.StatusCode := Response.StatusCode resp;
       Response.Proto := Response.Proto resp;
       Response.ProtoMajor := Response.ProtoMajor resp;
       Response.ProtoMinor := Response.ProtoMinor resp;
       Response.Header := Response.Header resp;
       Response.Body := body;
       Response.ContentLength := Response.ContentLength resp;
       Response.TransferEncoding := Response.TransferEncoding resp;
       Response.Close := Response.Close resp;
       Response.Request := Response.Request resp |}.

Definition withHeader (resp : Response.t) (h : lib.Header) : Response.t :=
    {| Response.Status := Response.Status resp;
       Response.StatusCode := Response.StatusCode resp;
       Response.Proto := Response.Proto resp;
       Response.ProtoMajor := Response.ProtoMajor resp;
       Response.ProtoMinor := Response.ProtoMinor resp;
       Response.Header := h;
       Response.Body := Response.Body resp;
       Response.ContentLength := Response.ContentLength resp;
       Response.TransferEncoding := Response.TransferEncoding resp;
       Response.Close := Response.Close resp;
       Response.Request := Response.Request resp |}.

  (** [parseResponse], with the response afterwards: its body is replaced by
      the bytes the decoder read.  A failing [gzip.NewReader] panics; the
      deferred [recover] then makes the function return nil, and the body
      stays where the reader stopped. *)
Definition parseResponse (resp : Response.t) : option HarResponse.t * Response.t :=
    let header := Response.Header resp in          (* resp.Header.Clone() *)
    let decoded : Response.t + string * Response.t :=
      match Response.Body resp with
      | None => inr ("", resp)
      | Some raw =>
          let enc := ToLower (Header_Get header "Content-Encoding") in
          if String.eqb enc "gzip" then
            match gzip_reader raw with
            | inl used =>
                inl (withBody resp
                       (Some (substring used (String.length raw - used) raw)))
            | inr (text, used) =>
                inr (text, withBody resp (Some (substring 0 used raw)))
            end
          else if String.eqb enc "deflate" then
            let '(text, used) := flate_reader raw in
            inr (text, withBody resp (Some (substring 0 used raw)))
          else inr (raw, withBody resp (Some raw))
      end in
    match decoded with
    | inl resp' => (None, resp')
    | inr (decodeBody, resp') =>
        let harResponse :=
          {| HarResponse.Status := Response.StatusCode resp';
             HarResponse.StatusText := Response.Status resp';
             HarResponse.HttpVersion := Response.Proto resp';
             HarResponse.Cookies := parseCookies (readSetCookies (Response.Header resp'));
             HarResponse.Headers := parseStringArrMap header;
             HarResponse.Content :=
               if captureContent then
                 Some {| HarContent.Text := decodeBody;
                         HarContent.Size := Z.of_nat (String.length decodeBody);
                         HarContent.MimeType := Header_Get (Response.Header resp') "Content-Type";
                         HarContent.Compression := 0;
                         HarContent.Encoding := "" |}
               else None;
             HarResponse.RedirectUrl := "";
             HarResponse.BodySize := Response.ContentLength resp';
             HarResponse.HeadersSize := calcHeaderSize header |} in
        (Some harResponse, resp')
    end.

Definition withServerIpAddress (e : HarEntry.t) (ip : string) : HarEntry.t :=
    {| HarEntry.ServerIPAddress := HarEntry.ServerIPAddress e;
       HarEntry.PageRef := HarEntry.PageRef e;
       HarEntry.StartedDateTime := HarEntry.StartedDateTime e;
       HarEntry.Time := HarEntry.Time e;
       HarEntry.Request := HarEntry.Request e;
       HarEntry.Response := HarEntry.Response e;
       HarEntry.Timings := HarEntry.Timings e;
       HarEntry.ServerIpAddress := ip;
       HarEntry.Connection := HarEntry.Connection e |}.

  (** [func fillIpAddress(req *http.Request, harEntry *HarEntry)]. *)
Definition fillIpAddress (req : Request.t) (harEntry : HarEntry.t) : HarEntry.t :=
    let host :=
      match SplitHostPort (URL.Host (Request.URL req)) with
      | Some (host, _) => host
      | None => URL.Host (Request.URL req)
      end in
    (* if ip := net.ParseIP(host); ip != nil { harEntry.ServerIpAddress = string(ip) } *)
    let harEntry :=
      match ParseIP host with
      | Some ip => withServerIpAddress harEntry (string_of_list_byte ip)
      | None => harEntry
      end in
    (* if ipaddr, err := net.LookupIP(host); err == nil { for ... } *)
    match LookupIP host with
    | Some ipaddr =>
        match List.find (fun ip => negb (is_nil (To4 ip))) ipaddr with
        | Some ip => withServerIpAddress harEntry (IP_String ipv6_text ip)
        | None => harEntry
        end
    | None => harEntry
    end.

Definition contentSecurityPolicy : string :=
    "default-src * blob: data: 'unsafe-inline' 'unsafe-eval';".

Definition ms (d : Z) : Z := Z.quot d 1000000.   (* d / time.Millisecond *)

  (** [func (m *HTTPTransport) RoundTrip(req *http.Request) (resp *http.Response, err error)] *)
Definition RoundTrip (m : HTTPTransport) (req : Request.t) : outcome RoundTripResult :=
    (* req.Header.Set("Accept-Encoding", "gzip, deflate") *)
    let req :=
      {| Request.Method := Request.Method req;
         Request.URL := Request.URL req;
         Request.Proto := Request.Proto req;
         Request.Header := Header_Set (Request.Header req) "Accept-Encoding" "gzip, deflate";
         Request.Body := Request.Body req;
         Request.ContentLength := Request.ContentLength req;
         Request.PostForm := Request.PostForm req |} in
    let st := clock 0 in
    let '(harRequest, req') := parseRequest (Some req) in
    let req := default req req' in
    match transport req with
    | inr err =>
        Return {| rt_resp := create502Response req err; rt_err := None;
                  rt_forwarded := req; rt_m := m; rt_written := None |}
    | inl resp =>
        let send := ms (clock 1 - st) in
        let rst := clock 2 in
        let '(harResponse, resp) := parseResponse resp in
        let receive := ms (clock 3 - rst) in
        let harEntry :=
          {| HarEntry.ServerIPAddress := "";
             HarEntry.PageRef := "";
             HarEntry.StartedDateTime := st;
             HarEntry.Time := ms (clock 4 - st);
             HarEntry.Request := harRequest;
             HarEntry.Response := harResponse;
             HarEntry.Timings :=
               {| HarTimings.Blocked := 0; HarTimings.Dns := 0; HarTimings.Ssl := 0;
                  HarTimings.Connect := 0; HarTimings.Send := send;
                  HarTimings.Wait := 0; HarTimings.Receive := receive |};
             HarEntry.ServerIpAddress := "";
             HarEntry.Connection := "" |} in
        bind
          (if negb (String.eqb (harFile m) "") then
             let harEntry := fillIpAddress req harEntry in
             bind (addEntry (Har.Log (Har_ m)) [harEntry]) (fun log' =>
               let m' := {| Har_ := {| Har.Log := log' |}; harFile := harFile m |} in
               Return (m', Some (harFile m, Har_ m')))
           else Return (m, None))
          (fun mw =>
             let h := Response.Header resp in
             let h := Header_Del h "Webkit-CSP" in
             let h := Header_Del h "Content-Security-Policy" in
             let h := Header_Del h "X-Webkit-CSP" in
             let h := Header_Del h "X-Content-Security-Policy" in
             let h := Header_Add h "Webkit-CSP" contentSecurityPolicy in
             let h := Header_Add h "Content-Security-Policy" contentSecurityPolicy in
             let h := Header_Add h "X-Webkit-CSP" contentSecurityPolicy in
             let h := Header_Add h "X-Content-Security-Policy" contentSecurityPolicy in
             Return {| rt_resp := withHeader resp h; rt_err := None;
                       rt_forwarded := req; rt_m := fst mw; rt_written := snd mw |})
    end.
End RoundTripper.

End grpc_proxy.

(** * Properties *)

Import tlsmux.

(** ** peekConn: the peek buffer never holds a byte *)

Section PeekConnFacts.
Context {R : Type} `{NetConn R}.

(** [copy] from an empty source leaves the destination as it was. *)
Lemma copy_nil {A} (dst : slice A) : fst (copy dst []) = dst.
Proof. destruct dst as [a l z]. unfold copy. simpl. by rewrite Nat.min_0_r. Qed.

(** A [Peek] while [p.peeked] has length 0 keeps that length at 0, reports
    [n = 0] and leaves the caller's buffer as it was: what is read from the
    socket is stored beyond the length of [p.peeked]. *)
Lemma peekConn_Peek_len0 (p : peekConn R) (b : slice byte) :
  len (peeked p) = 0 ->
  let '(p', b', n, _) := peekConn_Peek p b in
  len (peeked p') = 0 /\ n = 0 /\ b' = b.
Proof.
  intros Hlen. unfold peekConn_Peek.
  set (p1 := if cap (peeked p) <? cap b then _ else p).
  assert (H1 : len (peeked p1) = 0).
  { subst p1. destruct (cap (peeked p) <? cap b); [|done].
    destruct (negb (isnil (peeked p))); simpl; done. }
  destruct (len (peeked p1) <? cap b) eqn:E.
  - destruct (Conn_Read (Conn p1) (cap b - len (peeked p1))) as [[c' data] e].
    simpl. rewrite H1. unfold elems. simpl. rewrite H1. simpl.
    rewrite Nat.min_0_r. by destruct b.
  - simpl. unfold elems. rewrite H1. simpl.
    rewrite Nat.min_0_r. by destruct b.
Qed.

(** A [Read] while [p.peeked] has length 0 hands the call to the socket and
    leaves that length at 0. *)
Lemma peekConn_Read_len0 (p : peekConn R) (b : slice byte) :
  len (peeked p) = 0 ->
  let '(p', _, n, e) := peekConn_Read p b in
  len (peeked p') = 0
  /\ (Conn p', snd (fst (Conn_Read (Conn p) (len b))), e) = Conn_Read (Conn p) (len b)
  /\ n = length (snd (fst (Conn_Read (Conn p) (len b)))).
Proof.
  intros Hlen. unfold peekConn_Read.
  destruct (isnil (peeked p)).
  - destruct (Conn_Read (Conn p) (len b)) as [[c' data] e]. simpl. done.
  - rewrite Hlen. replace (len b <? 0) with false by (symmetry; apply Nat.ltb_ge; lia).
    unfold elems. rewrite Hlen. simpl. rewrite Nat.sub_0_r.
    destruct (Conn_Read (Conn p) (len b)) as [[c' data] e]. simpl.
    split; [done|]. split; [done|]. lia.
Qed.

(** The calls a client can make on a [peekConn]. *)
Inductive call : Type := CallPeek (b : slice byte) | CallRead (b : slice byte).

Definition step (p : peekConn R) (c : call) : peekConn R :=
  match c with
  | CallPeek b => fst (fst (fst (peekConn_Peek p b)))
  | CallRead b => fst (fst (fst (peekConn_Read p b)))
  end.

(** Invariant: whatever was called on it, the peek buffer of a [peekConn]
    has length 0. *)
Lemma peekConn_len_invariant (c : R) (calls : list call) :
  len (peeked (fold_left step calls (NewPeekConn c))) = 0.
Proof.
  assert (G : forall p, len (peeked p) = 0 ->
                        len (peeked (fold_left step calls p)) = 0).
  { induction calls as [|k calls IH]; intros p Hp; simpl; [done|].
    apply IH. destruct k as [b|b]; simpl.
    - pose proof (peekConn_Peek_len0 p b Hp) as Hk.
      destruct (peekConn_Peek p b) as [[[p' b'] n] e]. simpl. tauto.
    - pose proof (peekConn_Read_len0 p b Hp) as Hk.
      destruct (peekConn_Read p b) as [[[p' b'] n] e]. simpl. tauto. }
  apply G. done.
Qed.

(** So [Peek] never shows a byte: it always returns 0. *)
Lemma peekConn_Peek_returns_0 (c : R) (calls : list call) (b : slice byte) :
  snd (fst (peekConn_Peek (fold_left step calls (NewPeekConn c)) b)) = 0.
Proof.
  pose proof (peekConn_Peek_len0 _ b (peekConn_len_invariant c calls)) as Hk.
  destruct (peekConn_Peek _ b) as [[[p' b'] n] e]. simpl. tauto.
Qed.

(** And what [Peek] took from the socket is gone: on a fresh [peekConn], a
    [Peek] with a buffer of capacity [k > 0] reads up to [k] bytes from the
    socket, and the following [Read] starts after them. *)
Lemma peekConn_Peek_consumes (c : R) (b : slice byte) :
  0 < cap b ->
  Conn (fst (fst (fst (peekConn_Peek (NewPeekConn c) b))))
  = fst (fst (Conn_Read c (cap b))).
Proof.
  intros Hcap. unfold peekConn_Peek, NewPeekConn.
  cbn [peeked Conn nilSlice cap arr isnil len negb length].
  assert (E : (0 <? cap b) = true) by (apply Nat.ltb_lt; lia).
  unfold cap in E |- *. rewrite E.
  cbn [make len peeked Conn]. rewrite E, Nat.sub_0_r.
  destruct (Conn_Read c (length (arr b))) as [[c' data] e]. done.
Qed.
End PeekConnFacts.

(** C1 (peek idempotence and no byte loss), evaluated on the code.  On a
    connection that delivers "GET / HTTP/1.1", [Peek] with a 4-byte buffer
    and then [Peek] with an 8-byte buffer both return [n = 0] and show no
    byte; they take "GET " and "/ HTTP/1" from the socket, so the next
    [Read] of 4 bytes delivers ".1" where, without the peeks, it delivers
    "GET ": the twelve peeked bytes are lost. *)
Theorem peek_then_read_loses_bytes :
  let c : segConn := [bytes "GET / HTTP/1.1"] in
  let p0 := NewPeekConn c in
  let r1 := peekConn_Peek p0 (make Byte.x00 4 4) in
  let r2 := peekConn_Peek (fst (fst (fst r1))) (make Byte.x00 8 8) in
  let r3 := peekConn_Read (fst (fst (fst r2))) (make Byte.x00 4 4) in
  snd (fst r1) = 0 /\ delivered r1 = []
  /\ snd (fst r2) = 0 /\ delivered r2 = []
  /\ delivered r3 = bytes ".1"
  /\ delivered (peekConn_Read p0 (make Byte.x00 4 4)) = bytes "GET ".
Proof. vm_compute. repeat split. Qed.

(** ** The middleware chain *)

Section ListenerFacts.
Context {R P : Type} `{PeekConn P} `{ProxiedConnection R} `{ProxiedConnection P}.

(** The two connection channels and the forwards agree in two worlds. *)
Definition same_chans (w w' : World R P) : Prop :=
  tlsConns w' = tlsConns w /\ nonTLSConns w' = nonTLSConns w
  /\ forwards w' = forwards w.

Lemma same_chans_refl (w : World R P) : same_chans w w.
Proof. by repeat split. Qed.

Lemma same_chans_trans (w1 w2 w3 : World R P) :
  same_chans w1 w2 -> same_chans w2 w3 -> same_chans w1 w3.
Proof. unfold same_chans. intros (?&?&?) (?&?&?). repeat split; congruence. Qed.

Lemma time_Now_same_chans (w : World R P) : same_chans w (snd (time_Now w)).
Proof. unfold time_Now. destruct (clock w); by repeat split. Qed.

(** A middleware that stops the chain: once it returns a nil connection no
    later middleware sees the connection. *)
Lemma runMiddles_taken_stops (middle : ListenerMiddleware R P)
    (ms : list (ListenerMiddleware R P)) (c : conn R P) (w w' : World R P) :
  middle c w = Return ((None, None), w') ->
  runMiddles (middle :: ms) c w = Return ((None, None), w').
Proof. intros Hm. simpl. by rewrite Hm. Qed.

(** A pattern middleware sends nothing itself: either it passes the
    connection on, or it ends by calling [middle], in a world whose channels
    are as before. *)
Lemma patternLoop_cases (pattern : regexp.regexp) (timeout : Z)
    (middle : ListenerMiddleware R P) (t : Z) (peekSizes : list nat)
    (p : P) (data : slice byte) (w : World R P) :
  exists p' w',
    same_chans w w'
    /\ (patternLoop pattern timeout middle t peekSizes p data w
        = Return ((Some (Pattern p' t), None), w')
        \/ patternLoop pattern timeout middle t peekSizes p data w
           = middle (Pattern p' t) w').
Proof.
  revert p data w.
  induction peekSizes as [|size sizes IH]; intros p data w; simpl.
  - exists p, w. split; [apply same_chans_refl | by left].
  - destruct (peekLoop _ _ _ _ _ _ _ _) as [[[[p1 data1] n] e] ticks].
    set (w1 := {| tlsConns := tlsConns w; nonTLSConns := nonTLSConns w;
                  forwards := forwards w; clock := ticks |}).
    assert (Hw1 : same_chans w w1) by (by repeat split).
    destruct (n <? size).
    + exists p1, w1. split; [done | by left].
    + destruct (regexp.Match pattern (elems data1)).
      * exists p1, w1. split; [done | by right].
      * destruct (IH p1 data1 w1) as (p' & w' & Hs & Hc).
        exists p', w'. split; [by eapply same_chans_trans | done].
Qed.

Lemma patternMiddleware_cases (pattern : regexp.regexp) (peekSizes : list nat)
    (timeout : Z) (middle : ListenerMiddleware R P) (c : conn R P)
    (w : World R P) :
  (exists r, c = Raw r)
  \/ exists p' t w',
       same_chans w w'
       /\ (patternMiddleware pattern peekSizes timeout middle c w
           = Return ((Some (Pattern p' t), None), w')
           \/ patternMiddleware pattern peekSizes timeout middle c w
              = middle (Pattern p' t) w').
Proof.
  destruct c as [r|p|p t]; [left; by eexists | right | right];
    unfold patternMiddleware; simpl.
  - pose proof (time_Now_same_chans w) as Hn.
    destruct (time_Now w) as [t w0]. simpl in Hn |- *.
    destruct (patternLoop_cases pattern timeout middle t peekSizes p
                (make Byte.x00 8 8) w0) as (p' & w' & Hs & Hc).
    exists p', t, w'. split; [by eapply same_chans_trans | done].
  - destruct (patternLoop_cases pattern timeout middle t peekSizes p
                (make Byte.x00 8 8) w) as (p' & w' & Hs & Hc).
    exists p', t, w'. split; done.
Qed.

(** The middlewares [New] installs, in order. *)
Lemma New_hlisten_middles {L} (l : L) :
  middles (New_hlisten (R:=R) (P:=P) l)
  = [ patternMiddleware tlsPattern [3] 0 sendTLS;
      patternMiddleware httpPattern [4; 5; 6; 7; 8] 0 sendNonTLS;
      fallback ]
  /\ enable (New_hlisten (R:=R) (P:=P) l) = true.
Proof. split; reflexivity. Qed.

(** C5 (classifier disjointness).  Whatever [Peek] shows, the chain of [New]
    run on a connection wrapped for peeking returns and does one of three
    things: it sends nothing to either channel; it sends one connection to
    the TLS channel, nothing to the plaintext channel, and skips the
    connection; or it sends one connection to the plaintext channel, nothing
    to the TLS channel, and skips the connection. *)
Theorem classifier_disjointness (p : P) (w : World R P) :
  exists res w',
    runMiddles (middles (New_hlisten (R:=R) (P:=P) tt)) (Peeking p) w
    = Return (res, w')
    /\ ((tlsConns w' = tlsConns w /\ nonTLSConns w' = nonTLSConns w)
        \/ (exists x, tlsConns w' = (tlsConns w ++ [x])%list
                      /\ nonTLSConns w' = nonTLSConns w
                      /\ res = (None, None))
        \/ (exists x, nonTLSConns w' = (nonTLSConns w ++ [x])%list
                      /\ tlsConns w' = tlsConns w
                      /\ res = (None, None))).
Proof.
  destruct (New_hlisten_middles tt) as [-> _].
  cbn [runMiddles].
  destruct (patternMiddleware_cases tlsPattern [3] 0 sendTLS (Peeking p) w)
    as [[r Hr] | (p1 & t1 & w1 & (Ht1 & Hn1 & Hf1) & [E1 | E1])];
    [discriminate | |]; rewrite E1.
  - (* the TLS classifier passes the connection on *)
    cbn [bind].
    destruct (patternMiddleware_cases httpPattern [4; 5; 6; 7; 8] 0 sendNonTLS
                (Pattern p1 t1) w1)
      as [[r Hr] | (p2 & t2 & w2 & (Ht2 & Hn2 & Hf2) & [E2 | E2])];
      [discriminate | |]; rewrite E2.
    + (* so does the HTTP classifier; the fallback sees a patternConn *)
      cbn [bind]. unfold fallback. cbn [asProxied bind runMiddles].
      eexists _, _. split; [reflexivity|]. left. split; congruence.
    + (* the HTTP classifier takes it *)
      unfold sendNonTLS. cbn [bind].
      eexists _, _. split; [reflexivity|]. right. right.
      exists (Pattern p2 t2). cbn [nonTLSConns tlsConns].
      repeat split; congruence.
  - (* the TLS classifier takes it: nothing else runs *)
    unfold sendTLS. cbn [bind].
    eexists _, _. split; [reflexivity|]. right. left.
    exists (Pattern p1 t1). cbn [nonTLSConns tlsConns].
    repeat split; congruence.
Qed.
End ListenerFacts.

(** ** The classifiers over the peekConn of the code *)

Section MuxFacts.
Context {R : Type} `{NetConn R} `{ProxiedConnection R}.

(** With [timeout = 0], as [New] passes it, a pattern middleware over a
    [peekConn] sees [n = 0] at its first peek size and passes the connection
    on without matching its pattern and without calling [middle]. *)
Lemma peekConn_patternLoop_passes (pattern : regexp.regexp)
    (middle : ListenerMiddleware R (peekConn R)) (t : Z) (size : nat)
    (sizes : list nat) (p : peekConn R) (data : slice byte)
    (w : World R (peekConn R)) :
  len (peeked p) = 0 -> 0 < size ->
  exists p',
    patternLoop pattern 0 middle t (size :: sizes) p data w
    = Return ((Some (Pattern p' t), None), w)
    /\ len (peeked p') = 0.
Proof.
  intros Hlen Hsize. cbn [patternLoop].
  set (data0 := if cap data <? size then make Byte.x00 size size else data).
  destruct (clock w) as [|tick ticks] eqn:Hclock.
  - cbn [peekLoop is_nil]. cbn [Peek peekConn_PeekConn].
    replace (0 <? size) with true by (symmetry; apply Nat.ltb_lt; lia).
    cbn [andb].
    pose proof (peekConn_Peek_len0 p (mkSlice (arr data0) size false) Hlen) as Hk.
    destruct (peekConn_Peek p _) as [[[p' b'] n] e].
    destruct Hk as (Hl & -> & _). cbn [Z.eqb].
    replace (0 <? size) with true by (symmetry; apply Nat.ltb_lt; lia).
    exists p'. split; [|done]. destruct w; simpl in *; by subst.
  - cbn [peekLoop is_nil]. cbn [Peek peekConn_PeekConn].
    replace (0 <? size) with true by (symmetry; apply Nat.ltb_lt; lia).
    cbn [andb].
    pose proof (peekConn_Peek_len0 p (mkSlice (arr data0) size false) Hlen) as Hk.
    destruct (peekConn_Peek p _) as [[[p' b'] n] e].
    destruct Hk as (Hl & -> & _). cbn [Z.eqb].
    replace (0 <? size) with true by (symmetry; apply Nat.ltb_lt; lia).
    exists p'. split; [|done]. destruct w; simpl in *; by subst.
Qed.

(** The chain of [New] never classifies: for every connection the wrapped
    listener hands out, all three middlewares pass it on and neither channel
    receives anything. *)
Theorem mux_never_classifies (c : R) (w : World R (peekConn R)) :
  exists p t w',
    runMiddles (middles (New_hlisten (R:=R) (P:=peekConn R) tt))
               (Peeking (NewPeekConn c)) w
    = Return ((Some (Pattern p t), None), w')
    /\ tlsConns w' = tlsConns w /\ nonTLSConns w' = nonTLSConns w.
Proof.
  destruct (New_hlisten_middles (R:=R) (P:=peekConn R) tt) as [-> _].
  cbn [runMiddles]. unfold patternMiddleware at 1. cbn [bind].
  pose proof (time_Now_same_chans w) as (Ht & Hn & _).
  destruct (time_Now w) as [t w0]. cbn [snd] in Ht, Hn. cbn [bind].
  destruct (peekConn_patternLoop_passes tlsPattern sendTLS t 3 []
              (NewPeekConn c) (make Byte.x00 8 8) w0) as (p1 & -> & Hl1);
    [done | lia |].
  cbn [bind]. unfold patternMiddleware at 1. cbn [bind].
  destruct (peekConn_patternLoop_passes httpPattern sendNonTLS t 4 [5; 6; 7; 8]
              p1 (make Byte.x00 8 8) w0) as (p2 & -> & Hl2); [done | lia |].
  cbn [bind]. unfold fallback. cbn [asProxied bind runMiddles].
  by exists p2, t, w0.
Qed.
End MuxFacts.

(** C4 (HTTP classifier exactness), evaluated on the code.  A connection
    that opens with "GET /index.html HTTP/1.1" is not classified as
    plaintext HTTP: the HTTP classifier passes it on, [Accept] of the
    listener of [New] returns it, and neither channel receives it.  The
    pattern alone is not exact either: the peeked text "xxxxxGET", which
    does not begin with a method and a space, matches it, and so does
    "CONNECTx". *)
Theorem http_classifier_misses_GET :
  let c : segConn := [bytes "GET /index.html HTTP/1.1"] in
  let w0 : World segConn (peekConn segConn) := mkWorld [] [] [] [] in
  (exists p t w',
      patternMiddleware httpPattern [4; 5; 6; 7; 8] 0 sendNonTLS
                        (Peeking (NewPeekConn c)) w0
      = Return ((Some (Pattern p t), None), w')
      /\ nonTLSConns w' = [])
  /\ (exists c' l' w',
         Accept (New_hlisten [inl c]) w0 = Return (Accepted c', l', w')
         /\ nonTLSConns w' = [] /\ tlsConns w' = [])
  /\ regexp.Match httpPattern (bytes "GET /ind") = true
  /\ regexp.Match httpPattern (bytes "xxxxxGET") = true
  /\ regexp.Match httpPattern (bytes "CONNECTx") = true.
Proof.
  cbv zeta. split; [|split; [|by vm_compute]].
  - eexists _, _, _. split; [vm_compute; reflexivity | reflexivity].
  - eexists _, _, _. split; [vm_compute; reflexivity | by split].
Qed.

(** ** Closing the listeners of [New] *)

Section CloseFacts.
Context {L : Type} `{NetListener L}.

(** Once [closer] has run, [Close] changes nothing and returns nil. *)
Lemma Close_done (d : derived) (s : muxShared L) :
  done (closer s) = true -> Close d s = (s, None).
Proof.
  intros Hd. destruct d; unfold Close, tlsMuxListener_Close, Once_Do;
    rewrite Hd; by destruct s.
Qed.

(** The first [Close], on either listener, closes the wrapped listener. *)
Lemma Close_first (d : derived) (s : muxShared L) :
  done (closer s) = false ->
  fst (Close d s)
  = {| shared_Listener := fst (Listener_Close (shared_Listener s));
       closer := mkOnce true;
       closeCalls := S (closeCalls s) |}.
Proof.
  intros Hd. destruct d; unfold Close, tlsMuxListener_Close, Once_Do;
    rewrite Hd; by destruct (Listener_Close (shared_Listener s)).
Qed.

Lemma closeAll_done (ds : list derived) (s : muxShared L) :
  done (closer s) = true -> closeAll ds s = s.
Proof.
  revert s. induction ds as [|d ds IH]; intros s Hd; [done|].
  unfold closeAll in *. simpl. rewrite (Close_done d s Hd). simpl. by apply IH.
Qed.

(** C8 (idempotent close).  After any non-empty sequence of [Close] calls on
    the two listeners of [New], in any order, the wrapped listener is the
    one its own [Close] left behind, and that [Close] was called once. *)
Theorem close_exactly_once (listener : L) (ds : list derived) :
  ds <> [] ->
  closeCalls (closeAll ds (New_shared listener)) = 1
  /\ shared_Listener (closeAll ds (New_shared listener))
     = fst (Listener_Close listener).
Proof.
  intros Hne. destruct ds as [|d ds]; [done|].
  change (closeAll (d :: ds) (New_shared listener))
    with (closeAll ds (fst (Close d (New_shared listener)))).
  rewrite (Close_first d (New_shared listener)) by done.
  rewrite closeAll_done by done. done.
Qed.
End CloseFacts.

(** [close_exactly_once] on a socket closed three times over both listeners. *)
Lemma close_exactly_once_witness :
  [TLSListener; NonTLSListener; TLSListener] <> []
  /\ closeCalls (closeAll [TLSListener; NonTLSListener; TLSListener]
                          (New_shared {| closed := 0 |})) = 1
  /\ shared_Listener (closeAll [TLSListener; NonTLSListener; TLSListener]
                               (New_shared {| closed := 0 |}))
     = fst (Listener_Close {| closed := 0 |}).
Proof.
  split; [discriminate|].
  apply (close_exactly_once {| closed := 0 |}
           [TLSListener; NonTLSListener; TLSListener]).
  discriminate.
Defined.

(** ** The HAR records *)

Import lib grpc_proxy.

(** What [parseStringArrMap] stores for one entry of the map: the
    query-unescape of the name, and the query-unescape of the values joined
    with commas. *)
Definition recorded (kv : string * list string) : HarNameValuePair.t :=
  {| HarNameValuePair.Name := fst (QueryUnescape (fst kv));
     HarNameValuePair.Value := fst (QueryUnescape (Join (snd kv) ",")) |}.

(** Filling a slice index by index, from the front, stores the list of
    what was computed. *)
Lemma fill_by_index {A B} (f : A -> B) (l : list A) (pre rest : list B) :
  length rest = length l ->
  foldl (fun st a => let '(index, acc) := st in (S index, <[index := f a]> acc))
        (length pre, (pre ++ rest)%list) l
  = (length pre + length l, (pre ++ map f l)%list).
Proof.
  revert pre rest. induction l as [|a l IH]; intros pre rest Hlen.
  - destruct rest; [|done]. simpl. by rewrite Nat.add_0_r.
  - destruct rest as [|r rest]; [done|]. cbn [foldl map].
    replace (<[length pre := f a]> (pre ++ r :: rest)%list)
      with ((pre ++ [f a]) ++ rest)%list.
    + replace (S (length pre)) with (length (pre ++ [f a])%list)
        by (rewrite length_app; simpl; lia).
      rewrite IH by (simpl in Hlen; lia).
      rewrite length_app, <- app_assoc. simpl. f_equal. lia.
    + rewrite <- app_assoc. simpl.
      rewrite insert_app_r_alt by lia. by rewrite Nat.sub_diag.
Qed.

Lemma parseStringArrMap_recorded (m : gmap string (list string)) :
  parseStringArrMap m = map recorded (map_to_list m).
Proof.
  unfold parseStringArrMap.
  pose proof (fill_by_index recorded (map_to_list m) []
                (replicate (size m) (HarNameValuePair.mk "" ""))) as Hf.
  simpl in Hf. unfold recorded in Hf at 1. simpl in Hf.
  rewrite Hf; [done|]. by rewrite length_replicate, length_map_to_list.
Qed.

(** One pair per name of the map, and each name's pair is in the result. *)
Lemma parseStringArrMap_lookup (m : gmap string (list string))
    (k : string) (vs : list string) :
  m !! k = Some vs -> recorded (k, vs) ∈ parseStringArrMap m.
Proof.
  intros Hk. rewrite parseStringArrMap_recorded.
  apply (list_elem_of_fmap_2 recorded). by apply elem_of_map_to_list.
Qed.

Lemma parseStringArrMap_length (m : gmap string (list string)) :
  length (parseStringArrMap m) = size m.
Proof.
  by rewrite parseStringArrMap_recorded, length_map, length_map_to_list.
Qed.

(** A header value sent as "a+b%2Fc" is recorded as "a b/c", two values are
    joined before they are unescaped, and a value with a malformed escape is
    recorded as the empty string. *)
Example recorded_examples :
  parseStringArrMap {[ "X-Path" := ["a+b%2Fc"] ]}
  = [ HarNameValuePair.mk "X-Path" "a b/c" ]
  /\ parseStringArrMap {[ "Accept" := ["text/html"; "image%2Fpng"] ]}
     = [ HarNameValuePair.mk "Accept" "text/html,image/png" ]
  /\ parseStringArrMap {[ "Discount" := ["100%"] ]}
     = [ HarNameValuePair.mk "Discount" "" ].
Proof. by vm_compute. Qed.


(** ** The HAR log *)

(** A slice header is well formed when its length is within its capacity. *)
Definition slice_ok {A} (s : slice A) : Prop := len s <= cap s.

Lemma makeNewEntries_ok : slice_ok makeNewEntries.
Proof. unfold slice_ok. change (0 <= cap makeNewEntries). apply Nat.le_0_l. Qed.

(** Writing one element just after the first [m] ones. *)
Lemma take_after_write {A} (arr1 : list A) (m : nat) (e : A) :
  m < length arr1 ->
  take (m + 1) (take m arr1 ++ [e] ++ drop (m + 1) arr1)%list
  = (take m arr1 ++ [e])%list
  /\ length (take m arr1 ++ [e] ++ drop (m + 1) arr1)%list = length arr1.
Proof.
  intros Hm. split.
  - rewrite app_assoc. apply take_app_length'.
    rewrite length_app, length_take_le by lia. simpl. lia.
  - rewrite !length_app, length_take_le, length_drop by lia. simpl. lia.
Qed.

(** [addEntry] with one entry whose request was captured appends that entry
    and nothing else; it reallocates when the capacity is used up. *)
Lemma addEntry_one (log : HarLog.t) (e : HarEntry.t) (r : HarRequest.t) :
  slice_ok (HarLog.Entries log) ->
  HarEntry.Request e = Some r ->
  exists log',
    addEntry log [e] = Return log'
    /\ elems (HarLog.Entries log') = (elems (HarLog.Entries log) ++ [e])%list
    /\ slice_ok (HarLog.Entries log')
    /\ HarLog.Version log' = HarLog.Version log
    /\ HarLog.Creator log' = HarLog.Creator log.
Proof.
  unfold slice_ok. intros Hok Hreq. unfold addEntry.
  set (entries := HarLog.Entries log) in *.
  set (m := len entries) in *. cbn [length].
  set (entries1 := if cap entries <? m + 1 then _ else entries).
  assert (H1 : m + 1 <= cap entries1 /\ take m (arr entries1) = elems entries).
  { subst entries1. destruct (cap entries <? m + 1) eqn:E.
    - unfold copy, make, cap, elems. cbn [fst arr len].
      fold m.
      assert (Hlt : length (take m (arr entries)) = m)
        by (apply length_take_le; unfold cap in Hok; lia).
      rewrite Hlt.
      replace (Nat.min ((m + 1 + 1) * 2) m) with m by lia.
      rewrite take_take. replace (Nat.min m m) with m by lia.
      split.
      + rewrite length_app, Hlt, length_drop, length_replicate. lia.
      + apply take_app_length'. by rewrite Hlt.
    - apply Nat.ltb_ge in E. split; [lia | done]. }
  destruct H1 as [Hcap Htake].
  unfold reslice. cbn [Nat.leb].
  replace (m + 1 <=? cap entries1) with true
    by (symmetry; apply Nat.leb_le; lia).
  cbn [andb bind]. rewrite Hreq.
  eexists. split; [reflexivity|]. cbn [HarLog.Entries HarLog.Version HarLog.Creator].
  unfold write_at, elems, cap. cbn [arr len].
  rewrite drop_0, Nat.sub_0_r.
  replace (m + 1 - m) with 1 by lia. cbn [take length].
  unfold cap in Hcap.
  destruct (take_after_write (arr entries1) m e) as [Ht Hl]; [lia|].
  rewrite Ht, Hl, Htake. repeat split; try done; lia.
Qed.

(** ** The recording round-tripper *)

(** The entries of the HAR log of a round-tripper. *)
Definition har_entries (m : HTTPTransport) : list HarEntry.t :=
  elems (HarLog.Entries (Har.Log (Har_ m))).

(** The request as [RoundTrip] hands it to the upstream transport. *)
Definition forwardedRequest (req : Request.t) : Request.t :=
  {| Request.Method := Request.Method req;
     Request.URL := Request.URL req;
     Request.Proto := Request.Proto req;
     Request.Header := <["Accept-Encoding" := ["gzip, deflate"]]> (Request.Header req);
     Request.Body := Request.Body req;
     Request.ContentLength := Request.ContentLength req;
     Request.PostForm := Request.PostForm req |}.

(** The response headers after the four deletions and the four additions. *)
Definition cspReplaced (h : lib.Header) : lib.Header :=
  let h := Header_Del h "Webkit-CSP" in
  let h := Header_Del h "Content-Security-Policy" in
  let h := Header_Del h "X-Webkit-CSP" in
  let h := Header_Del h "X-Content-Security-Policy" in
  let h := Header_Add h "Webkit-CSP" contentSecurityPolicy in
  let h := Header_Add h "Content-Security-Policy" contentSecurityPolicy in
  let h := Header_Add h "X-Webkit-CSP" contentSecurityPolicy in
  Header_Add h "X-Content-Security-Policy" contentSecurityPolicy.

Lemma canonical_keys :
  CanonicalMIMEHeaderKey "Accept-Encoding" = "Accept-Encoding"
  /\ CanonicalMIMEHeaderKey "Webkit-CSP" = "Webkit-Csp"
  /\ CanonicalMIMEHeaderKey "Content-Security-Policy" = "Content-Security-Policy"
  /\ CanonicalMIMEHeaderKey "X-Webkit-CSP" = "X-Webkit-Csp"
  /\ CanonicalMIMEHeaderKey "X-Content-Security-Policy" = "X-Content-Security-Policy".
Proof. by vm_compute. Qed.

(** After the replacement each of the four names carries the permissive
    policy and nothing else, whatever the headers were. *)
Lemma cspReplaced_values (h : lib.Header) :
  Header_Values (cspReplaced h) "Content-Security-Policy" = [contentSecurityPolicy]
  /\ Header_Values (cspReplaced h) "X-Content-Security-Policy" = [contentSecurityPolicy]
  /\ Header_Values (cspReplaced h) "Webkit-CSP" = [contentSecurityPolicy]
  /\ Header_Values (cspReplaced h) "X-Webkit-CSP" = [contentSecurityPolicy].
Proof.
  destruct canonical_keys as (_ & K1 & K2 & K3 & K4).
  unfold cspReplaced, Header_Add, Header_Values, Header_Del.
  rewrite K1, K2, K3, K4.
  repeat split; by simplify_map_eq.
Qed.

(** Every other header is left as the upstream sent it. *)
Lemma cspReplaced_others (h : lib.Header) (k : string) :
  k <> "Webkit-Csp" -> k <> "Content-Security-Policy" ->
  k <> "X-Webkit-Csp" -> k <> "X-Content-Security-Policy" ->
  cspReplaced h !! k = h !! k.
Proof.
  intros. destruct canonical_keys as (_ & K1 & K2 & K3 & K4).
  unfold cspReplaced, Header_Add, Header_Values, Header_Del.
  rewrite K1, K2, K3, K4. by simplify_map_eq.
Qed.

Section RoundTripFacts.
Variable transport : Request.t -> Response.t + string.
Variable clock : nat -> Z.
Variables readCookies readSetCookies : lib.Header -> list Cookie.t.
Variable URL_String : URL.t -> string.
Variable URL_Query : URL.t -> gmap string (list string).
Variable gzip_reader : string -> nat + (string * nat).
Variable flate_reader : string -> string * nat.
Variable SplitHostPort : string -> option (string * string).
Variable ParseIP : string -> option IP.
Variable LookupIP : string -> option (list IP).
Variable ipv6_text : IP -> string.

Local Abbreviation RoundTrip' :=
  (RoundTrip transport clock readCookies readSetCookies URL_String URL_Query
             gzip_reader flate_reader SplitHostPort ParseIP LookupIP ipv6_text).
Local Abbreviation parseRequest' := (parseRequest readCookies URL_String URL_Query).
Local Abbreviation parseResponse' :=
  (parseResponse readSetCookies gzip_reader flate_reader).
Local Abbreviation fillIpAddress' :=
  (fillIpAddress SplitHostPort ParseIP LookupIP ipv6_text).

(** [parseRequest] builds a record for every request and hands the request
    back as it was. *)
Lemma parseRequest_Some (req : Request.t) :
  exists hreq, parseRequest' (Some req) = (Some hreq, Some req).
Proof.
  unfold parseRequest, parsePostData.
  destruct (captureContent && _); by eexists.
Qed.

Lemma fillIpAddress_Request (req : Request.t) (e : HarEntry.t) :
  HarEntry.Request (fillIpAddress' req e) = HarEntry.Request e.
Proof.
  unfold fillIpAddress. destruct (SplitHostPort _) as [[host port]|];
    destruct (ParseIP _); destruct (LookupIP _) as [ips|];
    try destruct (List.find _ ips); reflexivity.
Qed.

(** [RoundTrip] step by step.  It always returns, with a nil error and
    having given the transport the request with the overwritten
    [Accept-Encoding].  On a transport error the response is the synthetic
    502 and neither the log nor the file is touched.  On success the
    response is the upstream one with the policy headers replaced; the log
    and the file are left alone when no HAR file is configured, and
    otherwise [addEntry] is run on one entry, which holds the captured
    request, and the log is written out. *)
Lemma RoundTrip_cases (m : HTTPTransport) (req : Request.t) :
  exists r,
    RoundTrip' m req = Return r
    /\ rt_err r = None
    /\ rt_forwarded r = forwardedRequest req
    /\ match transport (forwardedRequest req) with
       | inr err =>
           rt_resp r = create502Response (forwardedRequest req) err
           /\ rt_m r = m /\ rt_written r = None
       | inl resp =>
           rt_resp r
           = withHeader (snd (parseResponse' resp))
               (cspReplaced (Response.Header (snd (parseResponse' resp))))
           /\ harFile (rt_m r) = harFile m
           /\ if String.eqb (harFile m) "" then rt_m r = m /\ rt_written r = None
              else exists entry hreq,
                  fst (parseRequest' (Some (forwardedRequest req))) = Some hreq
                  /\ HarEntry.Request entry = Some hreq
                  /\ HarEntry.Response entry = fst (parseResponse' resp)
                  /\ addEntry (Har.Log (Har_ m)) [entry]
                     = Return (Har.Log (Har_ (rt_m r)))
                  /\ rt_written r = Some (harFile m, Har_ (rt_m r))
       end.
Proof.
  unfold RoundTrip.
  destruct canonical_keys as (KA & _). unfold Header_Set. rewrite KA.
  fold (forwardedRequest req).
  destruct (parseRequest_Some (forwardedRequest req)) as [hreq Hp].
  rewrite Hp. unfold default. cbn [from_option id].
  destruct (transport (forwardedRequest req)) as [resp | err].
  - destruct (parseResponse' resp) as [hresp resp1] eqn:Hresp. cbn [fst snd].
    destruct (String.eqb (harFile m) "") eqn:Hfile; cbn [negb bind].
    + eexists. split; [reflexivity|].
      cbn [rt_err rt_forwarded rt_resp rt_m rt_written fst snd].
      by repeat split.
    + set (entry := fillIpAddress' _ _).
      assert (Hentry : HarEntry.Request entry = Some hreq)
        by (subst entry; by rewrite fillIpAddress_Request).
      assert (Hre : HarEntry.Response entry = hresp).
      { subst entry. unfold fillIpAddress.
        destruct (SplitHostPort _) as [[host port]|];
          destruct (ParseIP _); destruct (LookupIP _) as [ips|];
          try destruct (List.find _ ips); reflexivity. }
      unfold addEntry at 1. cbn [length].
      set (entries1 := if cap _ <? _ then _ else _).
      assert (Hcap : len (HarLog.Entries (Har.Log (Har_ m))) + 1 <= cap entries1).
      { subst entries1.
        destruct (cap _ <? _) eqn:E; [|apply Nat.ltb_ge in E; lia].
        unfold copy, make, cap. cbn [fst arr len].
        rewrite length_app, length_take, length_drop, length_replicate. lia. }
      assert (Hadd : addEntry (Har.Log (Har_ m)) [entry]
                     = Return {| HarLog.Version := HarLog.Version (Har.Log (Har_ m));
                                 HarLog.Creator := HarLog.Creator (Har.Log (Har_ m));
                                 HarLog.Pages := HarLog.Pages (Har.Log (Har_ m));
                                 HarLog.Entries :=
                                   write_at
                                     (mkSlice (drop 0 (arr entries1))
                                        (len (HarLog.Entries (Har.Log (Har_ m))) + 1 - 0)
                                        (isnil entries1
                                         && (len (HarLog.Entries (Har.Log (Har_ m))) + 1 =? 0)))
                                     (len (HarLog.Entries (Har.Log (Har_ m))))
                                     (take (len (HarLog.Entries (Har.Log (Har_ m))) + 1
                                            - len (HarLog.Entries (Har.Log (Har_ m))))
                                           [entry]) |}).
      { unfold addEntry. cbn [length]. fold entries1. unfold reslice.
        cbn [Nat.leb].
        replace (_ <=? cap entries1) with true
          by (symmetry; apply Nat.leb_le; lia).
        cbn [andb bind]. by rewrite Hentry. }
      unfold reslice. cbn [Nat.leb].
      replace (_ <=? cap entries1) with true
        by (symmetry; apply Nat.leb_le; lia).
      cbn [andb bind]. rewrite Hentry. cbn [bind fst snd].
      eexists. split; [reflexivity|].
      cbn [rt_err rt_forwarded rt_resp rt_m rt_written harFile Har_ Har.Log fst snd].
      repeat split.
      exists entry, hreq. rewrite Hadd. by repeat split.
  - eexists. split; [reflexivity|].
    cbn [rt_err rt_forwarded rt_resp rt_m rt_written]. by repeat split.
Qed.

(** C3 (502 synthesis on upstream failure).  When the upstream round trip of
    the forwarded request fails with [err], [RoundTrip] returns a nil error
    and a response with status 502 whose only header is [X-Request-Error],
    carrying [err]. *)
Theorem upstream_error_gives_502 (m : HTTPTransport) (req : Request.t)
    (err : string) :
  transport (forwardedRequest req) = inr err ->
  exists r,
    RoundTrip' m req = Return r
    /\ rt_err r = None
    /\ Response.StatusCode (rt_resp r) = 502%Z
    /\ Response.Header (rt_resp r) = {[ "X-Request-Error" := [err] ]}
    /\ Header_Get (Response.Header (rt_resp r)) "X-Request-Error" = err.
Proof.
  intros Herr. destruct (RoundTrip_cases m req) as (r & Hr & He & _ & Hc).
  rewrite Herr in Hc. destruct Hc as (Hresp & _ & _).
  exists r. rewrite Hresp. by repeat split.
Qed.

(** C6 (CSP replacement).  When the upstream round trip succeeds, the
    response [RoundTrip] returns carries, under each of the four policy
    header names, the permissive policy and nothing else. *)
Theorem csp_headers_replaced (m : HTTPTransport) (req : Request.t)
    (resp : Response.t) :
  transport (forwardedRequest req) = inl resp ->
  exists r,
    RoundTrip' m req = Return r
    /\ rt_err r = None
    /\ Header_Values (Response.Header (rt_resp r)) "Content-Security-Policy"
       = ["default-src * blob: data: 'unsafe-inline' 'unsafe-eval';"]
    /\ Header_Values (Response.Header (rt_resp r)) "X-Content-Security-Policy"
       = ["default-src * blob: data: 'unsafe-inline' 'unsafe-eval';"]
    /\ Header_Values (Response.Header (rt_resp r)) "Webkit-CSP"
       = ["default-src * blob: data: 'unsafe-inline' 'unsafe-eval';"]
    /\ Header_Values (Response.Header (rt_resp r)) "X-Webkit-CSP"
       = ["default-src * blob: data: 'unsafe-inline' 'unsafe-eval';"].
Proof.
  intros Hok. destruct (RoundTrip_cases m req) as (r & Hr & He & _ & Hc).
  rewrite Hok in Hc. destruct Hc as (Hresp & _).
  exists r. rewrite Hresp. cbn [withHeader Response.Header].
  split; [done|]. split; [done|]. apply cspReplaced_values.
Qed.

(** C9 (request mutation).  The request [RoundTrip] gives to the transport
    is the one it received with the header map changed at the key
    [Accept-Encoding] only, where it holds exactly "gzip, deflate"; the
    response returned is the one the transport gave for that request. *)
Theorem accept_encoding_overwritten (m : HTTPTransport) (req : Request.t) :
  exists r,
    RoundTrip' m req = Return r
    /\ Request.Header (rt_forwarded r)
       = <["Accept-Encoding" := ["gzip, deflate"]]> (Request.Header req)
    /\ Request.Method (rt_forwarded r) = Request.Method req
    /\ Request.URL (rt_forwarded r) = Request.URL req
    /\ Request.Proto (rt_forwarded r) = Request.Proto req
    /\ Request.Body (rt_forwarded r) = Request.Body req
    /\ Request.ContentLength (rt_forwarded r) = Request.ContentLength req
    /\ match transport (rt_forwarded r) with
       | inr err => rt_resp r = create502Response (rt_forwarded r) err
       | inl resp =>
           Response.StatusCode (rt_resp r) = Response.StatusCode resp
       end.
Proof.
  destruct (RoundTrip_cases m req) as (r & Hr & _ & Hf & Hc).
  exists r. rewrite Hf. repeat split; [done|].
  destruct (transport (forwardedRequest req)) as [resp | err].
  - destruct Hc as (-> & _). cbn [withHeader Response.StatusCode].
    unfold parseResponse.
    destruct (Response.Body resp) as [raw|]; [|done].
    destruct (String.eqb _ "gzip").
    + by destruct (gzip_reader raw) as [used | [text used]].
    + destruct (String.eqb _ "deflate"); [|done].
      by destruct (flate_reader raw) as [text used].
  - by destruct Hc as (-> & _).
Qed.

(** Header by header: any name other than [Accept-Encoding] is forwarded
    with the values it came with. *)
Lemma other_headers_forwarded (m : HTTPTransport) (req : Request.t) (k : string) :
  k <> "Accept-Encoding" ->
  exists r,
    RoundTrip' m req = Return r
    /\ Request.Header (rt_forwarded r) !! k = Request.Header req !! k.
Proof.
  intros Hk. destruct (RoundTrip_cases m req) as (r & Hr & _ & Hf & _).
  exists r. split; [done|]. rewrite Hf. cbn [forwardedRequest Request.Header].
  by rewrite lookup_insert_ne.
Qed.

(** C2 as the code has it.  When the upstream round trip succeeds,
    [RoundTrip] appends exactly one entry to the log if a HAR file is
    configured, the entry holding the captured request and response, and
    leaves the log as it was if none is. *)
Theorem har_entry_appended_on_success (m : HTTPTransport) (req : Request.t)
    (resp : Response.t) :
  slice_ok (HarLog.Entries (Har.Log (Har_ m))) ->
  transport (forwardedRequest req) = inl resp ->
  exists r,
    RoundTrip' m req = Return r
    /\ if String.eqb (harFile m) "" then har_entries (rt_m r) = har_entries m
       else exists entry,
           har_entries (rt_m r) = (har_entries m ++ [entry])%list
           /\ HarEntry.Request entry
              = fst (parseRequest' (Some (forwardedRequest req)))
           /\ HarEntry.Response entry = fst (parseResponse' resp)
           /\ slice_ok (HarLog.Entries (Har.Log (Har_ (rt_m r)))).
Proof.
  intros Hok Hup. destruct (RoundTrip_cases m req) as (r & Hr & _ & _ & Hc).
  rewrite Hup in Hc. destruct Hc as (_ & _ & Hc).
  exists r. split; [done|].
  destruct (String.eqb (harFile m) "").
  - by destruct Hc as (-> & _).
  - destruct Hc as (entry & hreq & Hp & Hq & Hs & Hadd & _).
    destruct (addEntry_one _ entry hreq Hok Hq) as (log' & Hadd' & He & Hok' & _).
    rewrite Hadd in Hadd'. injection Hadd' as <-.
    exists entry. unfold har_entries. by rewrite Hp, Hq.
Qed.

(** A transport error leaves the log as it was, HAR file or not. *)
Lemma no_har_entry_on_error (m : HTTPTransport) (req : Request.t) (err : string) :
  transport (forwardedRequest req) = inr err ->
  exists r, RoundTrip' m req = Return r /\ har_entries (rt_m r) = har_entries m.
Proof.
  intros Herr. destruct (RoundTrip_cases m req) as (r & Hr & _ & _ & Hc).
  rewrite Herr in Hc. destruct Hc as (_ & Hm & _).
  exists r. by rewrite Hm.
Qed.

(** What [fillIpAddress] records, by cases on the resolution of the host.
    The resolution is consulted whether or not the host is a literal. *)
Lemma fillIpAddress_cases (req : Request.t) (harEntry : HarEntry.t) :
  let host :=
    match SplitHostPort (URL.Host (Request.URL req)) with
    | Some (host, _) => host
    | None => URL.Host (Request.URL req)
    end in
  HarEntry.ServerIpAddress (fillIpAddress' req harEntry)
  = match LookupIP host ≫= List.find (fun ip => negb (is_nil (To4 ip))) with
    | Some ip4 => IP_String ipv6_text ip4
    | None =>
        match ParseIP host with
        | Some ip => string_of_list_byte ip
        | None => HarEntry.ServerIpAddress harEntry
        end
    end.
Proof.
  cbv zeta. unfold fillIpAddress.
  destruct (SplitHostPort _) as [[host port]|];
    destruct (ParseIP _); destruct (LookupIP _) as [ips|]; cbn [mbind option_bind];
    try destruct (List.find _ ips); reflexivity.
Qed.

(** C7 (server IP capture preference), evaluated on the code.  For the URL
    host "[::1]:8080", a literal IP address, what is recorded is not the
    literal "::1" but the 16 raw bytes of the address read as a string; and
    the host is resolved all the same. *)
Theorem fillIpAddress_ipv6_literal_raw_bytes (req : Request.t)
    (harEntry : HarEntry.t) :
  URL.Host (Request.URL req) = "[::1]:8080" ->
  SplitHostPort "[::1]:8080" = Some ("::1", "8080") ->
  ParseIP "::1" = Some (replicate 15 Byte.x00 ++ [Byte.x01])%list ->
  LookupIP "::1" = Some [(replicate 15 Byte.x00 ++ [Byte.x01])%list] ->
  HarEntry.ServerIpAddress (fillIpAddress' req harEntry)
  = string_of_list_byte (replicate 15 Byte.x00 ++ [Byte.x01])%list
  /\ HarEntry.ServerIpAddress (fillIpAddress' req harEntry) <> "::1"
  /\ String.length (HarEntry.ServerIpAddress (fillIpAddress' req harEntry)) = 16.
Proof.
  intros Hhost Hsplit Hparse Hlookup.
  pose proof (fillIpAddress_cases req harEntry) as Hc. cbv zeta in Hc.
  rewrite Hhost, Hsplit, Hlookup, Hparse in Hc. cbn in Hc.
  rewrite Hc. repeat split. discriminate.
Qed.
End RoundTripFacts.

(** ** A concrete environment

    An upstream that answers 200 with a restrictive policy, an upstream that
    refuses the connection, a clock that ticks once a millisecond, and a
    resolver that knows the loopback address; they exercise the statements
    above on a GET request. *)

Definition example_request : Request.t :=
  {| Request.Method := "GET";
     Request.URL := {| URL.Scheme := "http"; URL.Host := "[::1]:8080";
                       URL.Path := "/hello"; URL.RawQuery := "" |};
     Request.Proto := "HTTP/1.1";
     Request.Header := {[ "Accept-Encoding" := ["br"] ]};
     Request.Body := None;
     Request.ContentLength := 0;
     Request.PostForm := ∅ |}.

Definition example_response : Response.t :=
  {| Response.Status := "200 OK";
     Response.StatusCode := 200;
     Response.Proto := "HTTP/1.1";
     Response.ProtoMajor := 1;
     Response.ProtoMinor := 1;
     Response.Header := {[ "Content-Security-Policy" := ["default-src 'self'"] ]};
     Response.Body := Some "hi";
     Response.ContentLength := 2;
     Response.TransferEncoding := [];
     Response.Close := false;
     Response.Request := None |}.

Definition example_up : Request.t -> Response.t + string :=
  fun _ => inl example_response.

Definition example_down : Request.t -> Response.t + string :=
  fun _ => inr "dial tcp [::1]:8080: connect: connection refused".

Definition example_clock : nat -> Z := fun k => (Z.of_nat k * 1000000)%Z.

Definition example_cookies : lib.Header -> list Cookie.t := fun _ => [].

Definition example_URL_String (u : URL.t) : string :=
  URL.Scheme u +:+ "://" +:+ URL.Host u +:+ URL.Path u.

Definition example_URL_Query : URL.t -> gmap string (list string) := fun _ => ∅.

Definition example_gzip : string -> nat + (string * nat) :=
  fun raw => inr (raw, String.length raw).

Definition example_flate : string -> string * nat :=
  fun raw => (raw, String.length raw).

Definition loopback6 : IP := (replicate 15 Byte.x00 ++ [Byte.x01])%list.

Definition example_SplitHostPort (hostport : string) : option (string * string) :=
  if String.eqb hostport "[::1]:8080" then Some ("::1", "8080") else None.

Definition example_ParseIP (s : string) : option IP :=
  if String.eqb s "::1" then Some loopback6 else None.

Definition example_LookupIP (host : string) : option (list IP) :=
  if String.eqb host "::1" then Some [loopback6] else None.

Definition example_ipv6_text : IP -> string := fun _ => "::1".

(** [RoundTrip] over the upstream [transport] in this environment. *)
Definition example_RoundTrip (transport : Request.t -> Response.t + string) :=
  RoundTrip transport example_clock example_cookies example_cookies
            example_URL_String example_URL_Query example_gzip example_flate
            example_SplitHostPort example_ParseIP example_LookupIP
            example_ipv6_text.

(** C2 (HAR completeness) as stated fails on the code.  With no HAR file
    configured, a round trip that succeeds (status 200) appends no entry;
    and with a HAR file configured, a round trip whose upstream refuses the
    connection returns the 502 and appends no entry either. *)
Lemma har_completeness_counterexample :
  (exists r,
      example_RoundTrip example_up (NewHTTPTransport "") example_request = Return r
      /\ Response.StatusCode (rt_resp r) = 200%Z
      /\ length (har_entries (rt_m r))
         <> length (har_entries (NewHTTPTransport "")) + 1)
  /\ (exists r,
         example_RoundTrip example_down (NewHTTPTransport "proxy.har") example_request
         = Return r
         /\ Response.StatusCode (rt_resp r) = 502%Z
         /\ length (har_entries (rt_m r))
            <> length (har_entries (NewHTTPTransport "proxy.har")) + 1).
Proof.
  split.
  - destruct (RoundTrip_cases example_up example_clock example_cookies
                example_cookies example_URL_String example_URL_Query
                example_gzip example_flate example_SplitHostPort
                example_ParseIP example_LookupIP example_ipv6_text
                (NewHTTPTransport "") example_request)
      as (r & Hr & _ & _ & Hc).
    cbn [example_up NewHTTPTransport harFile String.eqb] in Hc.
    destruct Hc as (Hresp & _ & Hm & _).
    exists r. split; [exact Hr|]. rewrite Hresp, Hm. split; [reflexivity | lia].
  - destruct (RoundTrip_cases example_down example_clock example_cookies
                example_cookies example_URL_String example_URL_Query
                example_gzip example_flate example_SplitHostPort
                example_ParseIP example_LookupIP example_ipv6_text
                (NewHTTPTransport "proxy.har") example_request)
      as (r & Hr & _ & _ & Hc).
    cbn [example_down] in Hc. destruct Hc as (Hresp & Hm & _).
    exists r. split; [exact Hr|]. rewrite Hresp, Hm. split; [reflexivity | lia].
Qed.

(** [har_entry_appended_on_success] with a HAR file configured. *)
Lemma har_entry_appended_on_success_witness :
  slice_ok (HarLog.Entries (Har.Log (Har_ (NewHTTPTransport "proxy.har"))))
  /\ example_up (forwardedRequest example_request) = inl example_response
  /\ exists r,
      example_RoundTrip example_up (NewHTTPTransport "proxy.har") example_request
      = Return r
      /\ if String.eqb (harFile (NewHTTPTransport "proxy.har")) ""
         then har_entries (rt_m r) = har_entries (NewHTTPTransport "proxy.har")
         else exists entry,
             har_entries (rt_m r)
             = (har_entries (NewHTTPTransport "proxy.har") ++ [entry])%list
             /\ HarEntry.Request entry
                = fst (parseRequest example_cookies example_URL_String
                         example_URL_Query (Some (forwardedRequest example_request)))
             /\ HarEntry.Response entry
                = fst (parseResponse example_cookies example_gzip example_flate
                         example_response)
             /\ slice_ok (HarLog.Entries (Har.Log (Har_ (rt_m r)))).
Proof.
  split; [exact makeNewEntries_ok|]. split; [reflexivity|].
  apply (har_entry_appended_on_success example_up example_clock example_cookies
           example_cookies example_URL_String example_URL_Query example_gzip
           example_flate example_SplitHostPort example_ParseIP example_LookupIP
           example_ipv6_text (NewHTTPTransport "proxy.har") example_request
           example_response).
  - exact makeNewEntries_ok.
  - reflexivity.
Defined.

(** [upstream_error_gives_502] on the upstream that refuses the connection. *)
Lemma upstream_error_gives_502_witness :
  example_down (forwardedRequest example_request)
  = inr "dial tcp [::1]:8080: connect: connection refused"
  /\ exists r,
      example_RoundTrip example_down (NewHTTPTransport "proxy.har") example_request
      = Return r
      /\ rt_err r = None
      /\ Response.StatusCode (rt_resp r) = 502%Z
      /\ Response.Header (rt_resp r)
         = {[ "X-Request-Error"
              := ["dial tcp [::1]:8080: connect: connection refused"] ]}
      /\ Header_Get (Response.Header (rt_resp r)) "X-Request-Error"
         = "dial tcp [::1]:8080: connect: connection refused".
Proof.
  split; [reflexivity|].
  apply (upstream_error_gives_502 example_down example_clock example_cookies
           example_cookies example_URL_String example_URL_Query example_gzip
           example_flate example_SplitHostPort example_ParseIP example_LookupIP
           example_ipv6_text (NewHTTPTransport "proxy.har") example_request).
  reflexivity.
Defined.

(** [csp_headers_replaced] on the upstream that sends [default-src 'self']. *)
Lemma csp_headers_replaced_witness :
  example_up (forwardedRequest example_request) = inl example_response
  /\ exists r,
      example_RoundTrip example_up (NewHTTPTransport "proxy.har") example_request
      = Return r
      /\ rt_err r = None
      /\ Header_Values (Response.Header (rt_resp r)) "Content-Security-Policy"
         = ["default-src * blob: data: 'unsafe-inline' 'unsafe-eval';"]
      /\ Header_Values (Response.Header (rt_resp r)) "X-Content-Security-Policy"
         = ["default-src * blob: data: 'unsafe-inline' 'unsafe-eval';"]
      /\ Header_Values (Response.Header (rt_resp r)) "Webkit-CSP"
         = ["default-src * blob: data: 'unsafe-inline' 'unsafe-eval';"]
      /\ Header_Values (Response.Header (rt_resp r)) "X-Webkit-CSP"
         = ["default-src * blob: data: 'unsafe-inline' 'unsafe-eval';"].
Proof.
  split; [reflexivity|].
  apply (csp_headers_replaced example_up example_clock example_cookies
           example_cookies example_URL_String example_URL_Query example_gzip
           example_flate example_SplitHostPort example_ParseIP example_LookupIP
           example_ipv6_text (NewHTTPTransport "proxy.har") example_request
           example_response).
  reflexivity.
Defined.

(** [fillIpAddress_ipv6_literal_raw_bytes] with the resolver of the
    environment. *)
Lemma fillIpAddress_ipv6_literal_raw_bytes_witness :
  URL.Host (Request.URL example_request) = "[::1]:8080"
  /\ example_SplitHostPort "[::1]:8080" = Some ("::1", "8080")
  /\ example_ParseIP "::1" = Some (replicate 15 Byte.x00 ++ [Byte.x01])%list
  /\ example_LookupIP "::1" = Some [(replicate 15 Byte.x00 ++ [Byte.x01])%list]
  /\ HarEntry.ServerIpAddress
       (fillIpAddress example_SplitHostPort example_ParseIP example_LookupIP
                      example_ipv6_text example_request HarEntry.zero)
     = string_of_list_byte (replicate 15 Byte.x00 ++ [Byte.x01])%list
  /\ HarEntry.ServerIpAddress
       (fillIpAddress example_SplitHostPort example_ParseIP example_LookupIP
                      example_ipv6_text example_request HarEntry.zero)
     <> "::1"
  /\ String.length
       (HarEntry.ServerIpAddress
          (fillIpAddress example_SplitHostPort example_ParseIP example_LookupIP
                         example_ipv6_text example_request HarEntry.zero))
     = 16.
Proof.
  split; [reflexivity|]. split; [reflexivity|]. split; [reflexivity|].
  split; [reflexivity|].
  apply (fillIpAddress_ipv6_literal_raw_bytes example_SplitHostPort
           example_ParseIP example_LookupIP example_ipv6_text
           example_request HarEntry.zero); reflexivity.
Defined.

(** * Further properties of the code *)

(** ** peek_conn.go *)

Section PeekConnMore.
Context {R : Type} `{NetConn R}.

(** X1.  Whatever was called on a [peekConn] before, [Peek] returns [n = 0],
    leaves the caller's buffer exactly as it was and keeps the peek buffer
    at length 0. *)
Theorem peek_never_shows_a_byte (c : R) (calls : list call) (b : slice byte) :
  let '(p', b', n, _) := peekConn_Peek (fold_left step calls (NewPeekConn c)) b in
  n = 0 /\ b' = b /\ len (peeked p') = 0.
Proof.
  pose proof (peekConn_Peek_len0 _ b (peekConn_len_invariant c calls)) as Hk.
  destruct (peekConn_Peek _ b) as [[[p' b'] n] e]. tauto.
Qed.

(** X2.  Whatever was called on a [peekConn] before, [Read] is one [Read] of
    the socket with the length of the caller's buffer: it returns the
    socket's count and error and stores the socket's bytes at the start of
    the buffer.  No byte a [Peek] took is ever delivered. *)
Theorem read_is_a_socket_read (c : R) (calls : list call) (b : slice byte) :
  let p := fold_left step calls (NewPeekConn c) in
  let '(c', data, e) := Conn_Read (Conn p) (len b) in
  let '(p', b', n, e') := peekConn_Read p b in
  Conn p' = c' /\ n = length data /\ e' = e
  /\ arr b' = (data ++ drop (length data) (arr b))%list
  /\ len b' = len b.
Proof.
  cbv zeta. pose proof (peekConn_len_invariant c calls) as Hlen.
  set (p := fold_left step calls (NewPeekConn c)) in *.
  unfold peekConn_Read.
  destruct (isnil (peeked p)).
  - destruct (Conn_Read (Conn p) (len b)) as [[c' data] e]. by cbn.
  - rewrite Hlen.
    replace (len b <? 0) with false by (symmetry; apply Nat.ltb_ge; lia).
    unfold elems. rewrite Hlen. cbn [take length fst copy]. rewrite Nat.sub_0_r.
    destruct (Conn_Read (Conn p) (len b)) as [[c' data] e].
    cbn. rewrite Nat.min_0_r. cbn. rewrite !take_0. cbn.
    rewrite drop_0. repeat split; lia.
Qed.

(** X3.  The first [Peek] on a fresh [peekConn], with a buffer of capacity
    [k > 0], asks the socket for [k] bytes, the capacity of the buffer and
    not its length; it keeps them in the backing array of a peek buffer of
    length 0, and returns the socket's error with [n = 0]. *)
Theorem first_peek_reads_capacity (c : R) (b : slice byte) :
  0 < cap b ->
  let '(c', data, e) := Conn_Read c (cap b) in
  peekConn_Peek (NewPeekConn c) b
  = ({| Conn := c';
        peeked := mkSlice (data ++ drop (length data) (replicate (cap b) Byte.x00))
                          0 false |},
     b, 0, e).
Proof.
  intros Hcap. unfold peekConn_Peek, NewPeekConn.
  cbn [peeked Conn nilSlice cap arr isnil len negb length].
  assert (E : (0 <? cap b) = true) by (apply Nat.ltb_lt; lia).
  unfold cap in E |- *. rewrite E.
  cbn [make len peeked Conn]. rewrite E, Nat.sub_0_r.
  destruct (Conn_Read c (length (arr b))) as [[c' data] e].
  unfold write_at, elems, copy. cbn. rewrite Nat.min_0_r. cbn.
  by destruct b.
Qed.

(** A [Peek] with a buffer of capacity 0 does not touch the socket. *)
Lemma peek_capacity_0 (c : R) (b : slice byte) :
  cap b = 0 -> peekConn_Peek (NewPeekConn c) b = (NewPeekConn c, b, 0, None).
Proof.
  intros Hcap. unfold peekConn_Peek, NewPeekConn. cbn. rewrite Hcap. cbn.
  rewrite Nat.min_0_r. by destruct b.
Qed.
End PeekConnMore.

(** [first_peek_reads_capacity] on a buffer of length 3 and capacity 8, as
    the TLS classifier passes it. *)
Lemma first_peek_reads_capacity_witness :
  0 < cap (mkSlice (replicate 8 Byte.x00) 3 false)
  /\ peekConn_Peek (NewPeekConn ([bytes "0123456789"] : segConn))
                   (mkSlice (replicate 8 Byte.x00) 3 false)
     = ({| Conn := [bytes "89"];
           peeked := mkSlice (bytes "01234567") 0 false |},
        mkSlice (replicate 8 Byte.x00) 3 false, 0, None).
Proof.
  assert (Hcap : 0 < cap (mkSlice (replicate 8 Byte.x00) 3 false))
    by (vm_compute; lia).
  split; [exact Hcap|].
  exact (first_peek_reads_capacity ([bytes "0123456789"] : segConn)
           (mkSlice (replicate 8 Byte.x00) 3 false) Hcap).
Defined.

(** ** The classifier patterns *)

(** The pattern of a literal byte string. *)
Definition lit (w : list byte) : regexp.regexp :=
  foldr (fun b r => regexp.RCat (regexp.RByte b) r) regexp.REmpty w.

Lemma byte_eqb_refl (b : byte) : Byte.eqb b b = true.
Proof. by apply Byte.byte_dec_lb. Qed.

(** A literal matches at an offset exactly when the text there begins with
    it, and then in one way. *)
Lemma rmatch_lit_prefix (w : list byte) (pos : nat) (post : list byte) :
  regexp.rmatch (lit w) pos (w ++ post) = [(pos + length w, post)].
Proof.
  revert pos. induction w as [|b w IH]; intros pos; cbn.
  - by rewrite Nat.add_0_r.
  - rewrite byte_eqb_refl. cbn. rewrite IH, app_nil_r.
    by replace (S pos + length w) with (pos + S (length w)) by lia.
Qed.

Lemma rmatch_lit_inv (w : list byte) (pos : nat) (rest : list byte) :
  regexp.rmatch (lit w) pos rest <> [] -> exists post, rest = (w ++ post)%list.
Proof.
  revert pos rest. induction w as [|b w IH]; intros pos rest Hne; cbn in *.
  - by exists rest.
  - destruct rest as [|c rest]; [done|].
    destruct (Byte.eqb b c) eqn:E; [|done].
    apply Byte.byte_dec_bl in E as ->. cbn in Hne. rewrite app_nil_r in Hne.
    destruct (IH _ _ Hne) as [post ->]. by exists post.
Qed.

Lemma rmatch_lit_iff (w : list byte) (pos : nat) (rest : list byte) :
  regexp.rmatch (lit w) pos rest <> [] <-> exists post, rest = (w ++ post)%list.
Proof.
  split; [apply rmatch_lit_inv|]. intros [post ->]. by rewrite rmatch_lit_prefix.
Qed.

Lemma rmatch_lit_cat_iff (w1 w2 : list byte) (pos : nat) (rest : list byte) :
  regexp.rmatch (regexp.RCat (lit w1) (lit w2)) pos rest <> []
  <-> exists post, rest = ((w1 ++ w2) ++ post)%list.
Proof.
  cbn. split.
  - intros Hne.
    destruct (regexp.rmatch (lit w1) pos rest) as [|x xs] eqn:E1; [done|].
    assert (H1 : regexp.rmatch (lit w1) pos rest <> []) by (by rewrite E1).
    destruct (rmatch_lit_inv _ _ _ H1) as [post1 ->].
    rewrite rmatch_lit_prefix in E1. injection E1 as <- <-.
    cbn in Hne. rewrite app_nil_r in Hne.
    destruct (rmatch_lit_inv _ _ _ Hne) as [post ->].
    exists post. by rewrite app_assoc.
  - intros [post ->]. rewrite <- app_assoc, rmatch_lit_prefix. cbn.
    by rewrite rmatch_lit_prefix.
Qed.

Lemma rmatch_alt_iff (r1 r2 : regexp.regexp) (pos : nat) (rest : list byte) :
  regexp.rmatch (regexp.RAlt r1 r2) pos rest <> []
  <-> regexp.rmatch r1 pos rest <> [] \/ regexp.rmatch r2 pos rest <> [].
Proof.
  cbn [regexp.rmatch].
  destruct (regexp.rmatch r1 pos rest), (regexp.rmatch r2 pos rest);
    cbn [app]; (split; [intros ? | intros [?|?]]);
    first [done | by left | by right].
Qed.

Lemma rmatch_begin_iff (r : regexp.regexp) (pos : nat) (rest : list byte) :
  regexp.rmatch (regexp.RCat regexp.RBegin r) pos rest <> []
  <-> pos = 0 /\ regexp.rmatch r 0 rest <> [].
Proof.
  cbn. destruct pos as [|pos]; cbn; [rewrite app_nil_r|]; split; try tauto.
  by intros [? _].
Qed.

(** [search] finds a match exactly when the pattern matches at some split of
    the text. *)
Lemma search_iff (r : regexp.regexp) (pos : nat) (rest : list byte) :
  regexp.search r pos rest = true
  <-> exists pre post,
      rest = (pre ++ post)%list /\ regexp.rmatch r (pos + length pre) post <> [].
Proof.
  revert pos. induction rest as [|c rest IH]; intros pos; cbn.
  - destruct (regexp.rmatch r pos []) eqn:E; split; try done.
    + intros (pre & post & Hs & Hne). symmetry in Hs.
      apply app_eq_nil in Hs as [-> ->]. cbn in Hne.
      by rewrite Nat.add_0_r, E in Hne.
    + intros _. exists [], []. cbn. by rewrite Nat.add_0_r, E.
  - destruct (regexp.rmatch r pos (c :: rest)) eqn:E.
    + rewrite IH. split.
      * intros (pre & post & -> & Hne). exists (c :: pre), post. cbn.
        split; [done|]. by replace (pos + S (length pre)) with (S pos + length pre) by lia.
      * intros (pre & post & Hs & Hne). destruct pre as [|c' pre].
        -- cbn in Hs, Hne. subst post. by rewrite Nat.add_0_r, E in Hne.
        -- cbn in Hs. injection Hs as -> ->. exists pre, post. split; [done|].
           cbn in Hne. by replace (S pos + length pre) with (pos + S (length pre)) by lia.
    + split; [|done]. intros _. exists [], (c :: rest). cbn.
      by rewrite Nat.add_0_r, E.
Qed.

Lemma rmatch_byte_iff (b : byte) (r : regexp.regexp) (pos : nat)
    (rest : list byte) :
  regexp.rmatch (regexp.RCat (regexp.RByte b) r) pos rest <> []
  <-> exists rest', rest = b :: rest' /\ regexp.rmatch r (S pos) rest' <> [].
Proof.
  cbn [regexp.rmatch]. destruct rest as [|c rest'].
  - cbn [flat_map]. split; [done | by intros (? & ? & _)].
  - destruct (Byte.eqb b c) eqn:E.
    + apply Byte.byte_dec_bl in E as <-. cbn [flat_map fst snd].
      rewrite app_nil_r. split; [by exists rest' | by intros (? & [= <-] & ?)].
    + cbn [flat_map]. split; [done|]. intros (? & [= <- <-] & _).
      by rewrite byte_eqb_refl in E.
Qed.

Lemma rmatch_range_iff (lo hi : byte) (pos : nat) (rest : list byte) :
  regexp.rmatch (regexp.RRange lo hi) pos rest <> []
  <-> exists c rest',
      rest = c :: rest' /\ (Byte.to_N lo <= Byte.to_N c <= Byte.to_N hi)%N.
Proof.
  cbn [regexp.rmatch]. destruct rest as [|c rest'].
  - split; [done | by intros (? & ? & ? & _)].
  - unfold regexp.byte_le.
    destruct (Byte.to_N lo <=? Byte.to_N c)%N eqn:E1;
      destruct (Byte.to_N c <=? Byte.to_N hi)%N eqn:E2; cbn [andb].
    + apply N.leb_le in E1, E2. split; [|done]. intros _. by exists c, rest'.
    + apply N.leb_gt in E2. split; [done|]. intros (? & ? & [= <- <-] & ?). lia.
    + apply N.leb_gt in E1. split; [done|]. intros (? & ? & [= <- <-] & ?). lia.
    + apply N.leb_gt in E1. split; [done|]. intros (? & ? & [= <- <-] & ?). lia.
Qed.

(** X4.  The TLS pattern matches a text exactly when the text begins with
    the byte 0x16, the byte 0x03 and a byte that is at most 0x04. *)
Theorem tlsPattern_exact (data : list byte) :
  regexp.Match tlsPattern data = true
  <-> exists v rest,
      data = Byte.x16 :: Byte.x03 :: v :: rest /\ (Byte.to_N v <= 4)%N.
Proof.
  unfold regexp.Match. rewrite search_iff. unfold tlsPattern. split.
  - intros (pre & post & -> & Hne).
    apply rmatch_begin_iff in Hne as [Hpos Hne]. destruct pre; [|done].
    apply rmatch_byte_iff in Hne as (r1 & -> & Hne).
    apply rmatch_byte_iff in Hne as (r2 & -> & Hne).
    apply rmatch_range_iff in Hne as (v & r3 & -> & Hv).
    exists v, r3. split; [done|]. change (Byte.to_N Byte.x04) with 4%N in Hv. lia.
  - intros (v & rest & -> & Hv). exists [], (Byte.x16 :: Byte.x03 :: v :: rest).
    split; [done|]. apply rmatch_begin_iff. split; [done|].
    apply rmatch_byte_iff. eexists. split; [done|].
    apply rmatch_byte_iff. eexists. split; [done|].
    apply rmatch_range_iff. exists v, rest. split; [done|].
    change (Byte.to_N Byte.x04) with 4%N. change (Byte.to_N Byte.x00) with 0%N. lia.
Qed.

(** The method words of the HTTP pattern that may occur anywhere. *)
Definition http_words : list (list byte) :=
  map bytes ["DELETE"; "GET"; "HEAD"; "OPTIONS"; "PATCH"; "POST"; "PUT"; "TRACE "].

(** X5.  What the HTTP pattern matches: a text that begins with CONNECT, or
    that contains DELETE, GET, HEAD, OPTIONS, PATCH, POST, PUT or "TRACE "
    (with the space) at any offset.  Only CONNECT is tied to the beginning,
    and only TRACE must be followed by a space. *)
Theorem httpPattern_matches (data : list byte) :
  regexp.Match httpPattern data = true
  <-> (exists post, data = (bytes "CONNECT" ++ post)%list)
      \/ exists w pre post, w ∈ http_words /\ data = (pre ++ w ++ post)%list.
Proof.
  unfold regexp.Match. rewrite search_iff.
  change httpPattern with
    (regexp.RAlt (regexp.RCat regexp.RBegin (lit (bytes "CONNECT")))
       (regexp.RAlt (lit (bytes "DELETE")) (regexp.RAlt (lit (bytes "GET"))
         (regexp.RAlt (lit (bytes "HEAD")) (regexp.RAlt (lit (bytes "OPTIONS"))
           (regexp.RAlt (lit (bytes "PATCH")) (regexp.RAlt (lit (bytes "POST"))
             (regexp.RAlt (lit (bytes "PUT"))
                (regexp.RCat (lit (bytes "TRACE")) (lit (bytes " "))))))))))).
  split.
  - intros (pre & post & -> & Hne).
    repeat (apply rmatch_alt_iff in Hne as [Hne | Hne]).
    + apply rmatch_begin_iff in Hne as [Hpos Hne]. destruct pre; [|done].
      apply rmatch_lit_inv in Hne as [post' ->]. left. by exists post'.
    + apply rmatch_lit_inv in Hne as [post' ->]. right.
      exists (bytes "DELETE"), pre, post'. split; [|done]. unfold http_words. set_solver.
    + apply rmatch_lit_inv in Hne as [post' ->]. right.
      exists (bytes "GET"), pre, post'. split; [|done]. unfold http_words. set_solver.
    + apply rmatch_lit_inv in Hne as [post' ->]. right.
      exists (bytes "HEAD"), pre, post'. split; [|done]. unfold http_words. set_solver.
    + apply rmatch_lit_inv in Hne as [post' ->]. right.
      exists (bytes "OPTIONS"), pre, post'. split; [|done]. unfold http_words. set_solver.
    + apply rmatch_lit_inv in Hne as [post' ->]. right.
      exists (bytes "PATCH"), pre, post'. split; [|done]. unfold http_words. set_solver.
    + apply rmatch_lit_inv in Hne as [post' ->]. right.
      exists (bytes "POST"), pre, post'. split; [|done]. unfold http_words. set_solver.
    + apply rmatch_lit_inv in Hne as [post' ->]. right.
      exists (bytes "PUT"), pre, post'. split; [|done]. unfold http_words. set_solver.
    + apply rmatch_lit_cat_iff in Hne as [post' ->]. right.
      exists (bytes "TRACE "), pre, post'. split; [|done]. unfold http_words. set_solver.
  - intros [[post ->] | (w & pre & post & Hw & ->)].
    + exists [], (bytes "CONNECT" ++ post)%list. split; [done|].
      apply rmatch_alt_iff. left. apply rmatch_begin_iff. split; [done|].
      apply rmatch_lit_iff. by exists post.
    + exists pre, (w ++ post)%list. split; [done|].
      unfold http_words in Hw. cbn [map] in Hw.
      repeat (apply elem_of_cons in Hw as [-> | Hw]).
      * do 1 (apply rmatch_alt_iff; right). apply rmatch_alt_iff; left.
        apply rmatch_lit_iff. by exists post.
      * do 2 (apply rmatch_alt_iff; right). apply rmatch_alt_iff; left.
        apply rmatch_lit_iff. by exists post.
      * do 3 (apply rmatch_alt_iff; right). apply rmatch_alt_iff; left.
        apply rmatch_lit_iff. by exists post.
      * do 4 (apply rmatch_alt_iff; right). apply rmatch_alt_iff; left.
        apply rmatch_lit_iff. by exists post.
      * do 5 (apply rmatch_alt_iff; right). apply rmatch_alt_iff; left.
        apply rmatch_lit_iff. by exists post.
      * do 6 (apply rmatch_alt_iff; right). apply rmatch_alt_iff; left.
        apply rmatch_lit_iff. by exists post.
      * do 7 (apply rmatch_alt_iff; right). apply rmatch_alt_iff; left.
        apply rmatch_lit_iff. by exists post.
      * do 8 (apply rmatch_alt_iff; right).
        apply rmatch_lit_cat_iff. by exists post.
      * by apply elem_of_nil in Hw.
Qed.

(** ** mux_listener.go and the listener options, continued *)

Section ListenerMore.
Context {R P : Type} `{PeekConn P} `{ProxiedConnection R} `{ProxiedConnection P}.

(** A listener option, as data: [None] is [WithPeekConn()], [Some middle] is
    [WithMiddleware(middle)]. *)
Definition option_of {L} (o : option (ListenerMiddleware R P))
  : ListenerOptions (R:=R) (P:=P) L :=
  match o with
  | None => WithPeekConn
  | Some middle => WithMiddleware middle
  end.

Lemma fold_options {L} (os : list (option (ListenerMiddleware R P)))
    (l : listener R P L) :
  middles (fold_left (fun l opt => opt l) (map option_of os) l)
  = (middles l ++ omap id os)%list
  /\ enable (fold_left (fun l opt => opt l) (map option_of os) l)
     = enable l || existsb is_nil os
  /\ Listener (fold_left (fun l opt => opt l) (map option_of os) l) = Listener l.
Proof.
  revert l. induction os as [|o os IH]; intros l; cbn [map fold_left].
  - cbn. by rewrite app_nil_r, orb_false_r.
  - destruct (IH (option_of o l)) as (Hm & He & Hl). rewrite Hm, He, Hl.
    destruct o as [middle|]; cbn.
    + by rewrite <- app_assoc.
    + by rewrite orb_true_r.
Qed.

(** X6.  [NewListener] applies its options in order: the middlewares of the
    listener are those of the [WithMiddleware] options, in the order given,
    peeking is enabled exactly when a [WithPeekConn] option is among them,
    wherever it stands, and the wrapped listener is the one given. *)
Theorem NewListener_options_in_order {L} (listen : L)
    (os : list (option (ListenerMiddleware R P))) :
  middles (NewListener listen (map option_of os)) = omap id os
  /\ enable (NewListener listen (map option_of os)) = existsb is_nil os
  /\ Listener (NewListener listen (map option_of os)) = listen.
Proof.
  unfold NewListener. destruct (fold_options os (mkListener listen false []))
    as (Hm & He & Hl).
  by rewrite Hm, He, Hl.
Qed.

(** How the loop over the middlewares goes on after a result. *)
Definition and_then (ms : list (ListenerMiddleware R P))
    (r : (option (conn R P) * error) * World R P)
  : outcome ((option (conn R P) * error) * World R P) :=
  match r with
  | ((Some c, None), w) => runMiddles ms c w
  | _ => Return r
  end.

(** The loop never returns a connection together with an error. *)
Lemma runMiddles_result (ms : list (ListenerMiddleware R P)) (c : conn R P)
    (w : World R P) (c' : option (conn R P)) (err : error) (w' : World R P) :
  runMiddles ms c w = Return ((c', err), w') ->
  err = None \/ c' = None.
Proof.
  revert c w. induction ms as [|middle ms IH]; intros c w; cbn.
  - intros [= <- <- <-]. by left.
  - destruct (middle c w) as [[[c1 [e|]] w1]|msg]; cbn; try done.
    + intros [= <- <- <-]. by right.
    + destruct c1 as [c1|]; [apply IH|]. intros [= <- <- <-]. by left.
Qed.

(** X7.  Running a chain of middlewares that is two chains one after the
    other is running the first and, if it hands a connection on without an
    error, running the second on that connection in the world the first
    left; a connection taken by the first chain, an error or a panic of the
    first chain ends the run and the second chain is not entered. *)
Theorem runMiddles_app (ms1 ms2 : list (ListenerMiddleware R P))
    (c : conn R P) (w : World R P) :
  runMiddles (ms1 ++ ms2) c w = bind (runMiddles ms1 c w) (and_then ms2).
Proof.
  revert c w. induction ms1 as [|middle ms1 IH]; intros c w; cbn; [done|].
  destruct (middle c w) as [[[c1 [e|]] w1]|msg]; cbn; try done.
  destruct c1 as [c1|]; [apply IH | done].
Qed.

(** What comes out of the chain of [New] when no classifier took the
    connection is a [*patternConn], whatever [Peek] shows. *)
Lemma New_chain_passes_patternConn (p : P) (w w' : World R P) (c : conn R P) :
  runMiddles (middles (New_hlisten (R:=R) (P:=P) tt)) (Peeking p) w
  = Return ((Some c, None), w') ->
  exists p' t, c = Pattern p' t.
Proof.
  destruct (New_hlisten_middles (R:=R) (P:=P) tt) as [-> _]. cbn [runMiddles].
  destruct (patternMiddleware_cases tlsPattern [3] 0 sendTLS (Peeking p) w)
    as [[r Hr] | (p1 & t1 & w1 & _ & [E1 | E1])]; [discriminate | |];
    rewrite E1; [|unfold sendTLS; cbn [bind]; discriminate].
  cbn [bind].
  destruct (patternMiddleware_cases httpPattern [4; 5; 6; 7; 8] 0 sendNonTLS
              (Pattern p1 t1) w1)
    as [[r Hr] | (p2 & t2 & w2 & _ & [E2 | E2])]; [discriminate | |];
    rewrite E2; [|unfold sendNonTLS; cbn [bind]; discriminate].
  cbn [bind]. unfold fallback. cbn [asProxied bind runMiddles].
  intros [= <- <-]. by exists p2, t2.
Qed.
End ListenerMore.

(** ** tls_mux.go, continued: the original destination and the accept loop *)

(** [interface { File() (f *os.File, err error) }] together with what
    [getOriginalAddr] does with the file: [None] when the dynamic type of the
    connection has no method [File]; [Some (inl err)] when [File] or
    [syscall.GetsockoptIPv6Mreq(fd, SOL_IP, SO_ORIGINAL_DST)] fails with
    [err]; [Some (inr multiaddr)] with the 16 bytes of [addr.Multiaddr]
    otherwise. *)
Class FileConn (C : Type) := OriginalDst : C -> option (string + list byte).

(** [*peekConn] embeds the interface [net.Conn]: it has no method [File]. *)
#[export] Instance peekConn_FileConn {R} : FileConn (peekConn R) := fun _ => None.

Definition AF_INET : nat := 2.

(** [int(multiaddr[i])] for an index within the array. *)
Definition byteAt (multiaddr : list byte) (i : nat) : nat :=
  Byte.to_nat (nth i multiaddr Byte.x00).

(** [net.JoinHostPort]: a host with a colon is put in brackets. *)
Definition JoinHostPort (host port : string) : string :=
  if existsb (fun ch => Ascii.eqb ch ":") (list_ascii_of_string host)
  then "[" +:+ host +:+ "]:" +:+ port
  else host +:+ ":" +:+ port.

Section OriginalAddr.
Context {R P : Type} `{FileConn R} `{FileConn P}.
Variable ipv6_text : IP -> string.

(** [c.(interface { File() ... })]: a [*patternConn] has the methods of
    [PeekConn] only. *)
Definition asFile (c : conn R P) : option (string + list byte) :=
  match c with
  | Raw r => OriginalDst r
  | Peeking p => OriginalDst p
  | Pattern _ _ => None
  end.

(** [func getOriginalAddr(c net.Conn) (string, error)]. *)
Definition getOriginalAddr (c : conn R P) : string * error :=
  match asFile c with
  | None => ("", Some "not a TCPConn")
  | Some (inl err) => ("", Some err)
  | Some (inr multiaddr) =>
      (* switch binary.LittleEndian.Uint16(addr.Multiaddr[:2]) *)
      if byteAt multiaddr 0 + 256 * byteAt multiaddr 1 =? AF_INET then
        let ip := take 4 (drop 4 multiaddr) in
        let port := byteAt multiaddr 2 * 256 + byteAt multiaddr 3 in
        (JoinHostPort (IP_String ipv6_text ip) (pretty port), None)
      else ("", Some "unrecognized address family")
  end.

(** What [handleConn] does to the network: the addresses it dialled, the
    connections it closed, and the connections it spliced to a destination
    with [forwardConnection]. *)
Record NetLog : Type := mkNetLog {
  dialed : list string;
  closedConns : list (conn R P);
  spliced : list (conn R P * string)
}.

(** [net.Dial(network, addr)]: the error, nil when the connection is made. *)
Variable Dial : string -> error.

(** [func handleConn(logger logrus.FieldLogger, c net.Conn) error].  The
    error of [forwardConnection] is logged and not returned. *)
Definition handleConn (c : conn R P) (n : NetLog) : error * NetLog :=
  match getOriginalAddr c with
  | (_, Some err) => (Some err, n)
  | (originalAddr, None) =>
      let n := mkNetLog (dialed n ++ [originalAddr]) (closedConns n) (spliced n) in
      match Dial originalAddr with
      | Some err =>
          (Some err, mkNetLog (dialed n) (closedConns n ++ [c]) (spliced n))
      | None =>
          (None, mkNetLog (dialed n) (closedConns n) (spliced n ++ [(c, originalAddr)]))
      end
  end.
End OriginalAddr.
Arguments NetLog R P : clear implicits.

(** A [*net.TCPConn] the kernel redirected: the segments still to arrive
    and what [File] and the socket option SO_ORIGINAL_DST answer. *)
Record tcpConn : Type := mkTCP {
  tcp_segs : segConn;
  tcp_dst : string + list byte
}.

#[export] Instance tcpConn_FileConn : FileConn tcpConn :=
  fun c => Some (tcp_dst c).

(** The error channels of [New], each [make(chan error, 128)]. *)
Record MuxErrs : Type := mkMuxErrs {
  nonTLSErrs : list string;
  tlsErrs : list string
}.

Definition chanSize : nat := 128.

(** [ch <- x] on a channel with a buffer of 128 that nothing receives from:
    [None] when the buffer is full and the sender waits. *)
Definition chan_send {A : Type} (x : A) (ch : list A) : option (list A) :=
  if List.length ch <? chanSize then Some (ch ++ [x])%list else None.

(** [nonTLSErrs <- err; tlsErrs <- err]: the channels afterwards, and
    whether both sends were made. *)
Definition sendErr (err : string) (e : MuxErrs) : MuxErrs * bool :=
  match chan_send err (nonTLSErrs e) with
  | None => (e, false)
  | Some n =>
      match chan_send err (tlsErrs e) with
      | None => (mkMuxErrs n (tlsErrs e), false)
      | Some t => (mkMuxErrs n t, true)
      end
  end.

(** How a turn of the accept loop of [New] ends: the loop goes on and the
    goroutine of the connection has returned; the loop goes on and that
    goroutine waits in a send; the loop itself waits, in [Accept] or in a
    send. *)
Inductive turnEnd : Type := Next | GoroutineWaits | LoopWaits.

Section AcceptLoop.
Context {R : Type} `{NetConn R} `{ProxiedConnection R} `{FileConn R}.
Variable ipv6_text : IP -> string.
Variable Dial : string -> error.

(** The state the goroutine of [New] works on. *)
Record MuxState : Type := mkMux {
  hlisten : listener R (peekConn R) (list (R + string));
  world : World R (peekConn R);
  errChans : MuxErrs;
  net : NetLog R (peekConn R)
}.

(** One turn of the loop of the goroutine [New] starts, the goroutine it
    starts for the connection run as far as it gets: [hlisten.Accept()],
    then the error to both error channels, or [handleConn] and its error to
    both error channels. *)
Definition New_acceptTurn (s : MuxState) : outcome (MuxState * turnEnd) :=
  bind (Accept (hlisten s) (world s)) (fun res =>
    let '(a, hlisten', w') := res in
    match a with
    | Blocked => Return (mkMux hlisten' w' (errChans s) (net s), LoopWaits)
    | Failed err =>
        let '(errs', sent) := sendErr err (errChans s) in
        Return (mkMux hlisten' w' errs' (net s),
                if sent then Next else LoopWaits)
    | Accepted c =>
        let '(err, n') := handleConn ipv6_text Dial c (net s) in
        match err with
        | Some err =>
            let '(errs', sent) := sendErr err (errChans s) in
            Return (mkMux hlisten' w' errs' n',
                    if sent then Next else GoroutineWaits)
        | None => Return (mkMux hlisten' w' (errChans s) n', Next)
        end
    end).

(** [k] turns of the loop, or fewer when the loop itself waits. *)
Fixpoint New_acceptTurns (k : nat) (s : MuxState)
  : outcome (MuxState * turnEnd) :=
  match k with
  | 0 => Return (s, Next)
  | S k =>
      bind (New_acceptTurn s) (fun res =>
        match snd res with
        | LoopWaits => Return res
        | _ => New_acceptTurns k (fst res)
        end)
  end.
End AcceptLoop.
Arguments MuxState R : clear implicits.

Lemma list_ascii_of_string_app (s1 s2 : string) :
  list_ascii_of_string (s1 +:+ s2)
  = (list_ascii_of_string s1 ++ list_ascii_of_string s2)%list.
Proof.
  induction s1 as [|a s1 IH]; [done|].
  change (String a s1 +:+ s2) with (String a (s1 +:+ s2)).
  cbn [list_ascii_of_string]. by rewrite IH.
Qed.

Lemma dec_no_colon (b : byte) :
  existsb (fun ch => Ascii.eqb ch ":") (list_ascii_of_string (dec b)) = false.
Proof. destruct b; vm_compute; reflexivity. Qed.

Section OriginalAddrFacts.
Context {R P : Type} `{FileConn R} `{FileConn P}.
Variable ipv6_text : IP -> string.

(** X8.  For a socket whose redirect record has the address family AF_INET
    in its first two bytes, little-endian, [getOriginalAddr] returns the
    four bytes 4..7 as a dotted quad, a colon and the port read big-endian
    from bytes 2 and 3, without brackets and without an error; [ipv6_text]
    is not consulted. *)
Theorem getOriginalAddr_AF_INET (c : conn R P) (multiaddr : list byte)
    (f0 f1 p0 p1 a b c0 d : byte) (pad : list byte) :
  asFile c = Some (inr multiaddr) ->
  multiaddr = f0 :: f1 :: p0 :: p1 :: a :: b :: c0 :: d :: pad ->
  f0 = Byte.x02 -> f1 = Byte.x00 ->
  getOriginalAddr ipv6_text c
  = ((dec a +:+ "." +:+ dec b +:+ "." +:+ dec c0 +:+ "." +:+ dec d)
       +:+ ":" +:+ pretty (Byte.to_nat p0 * 256 + Byte.to_nat p1),
     None).
Proof.
  intros Hfile -> -> ->. unfold getOriginalAddr. rewrite Hfile.
  change (byteAt _ 0 + 256 * byteAt _ 1 =? AF_INET) with true. cbv iota.
  cbn [drop take]. rewrite take_0. unfold byteAt. cbn [nth].
  unfold IP_String. cbn [To4]. unfold JoinHostPort.
  rewrite !list_ascii_of_string_app, !existsb_app, !dec_no_colon.
  cbn [list_ascii_of_string existsb orb].
  change (Ascii.eqb "." ":") with false. reflexivity.
Qed.

(** X9.  [getOriginalAddr] returns without an error only for a connection
    that has [File], whose file and socket option could be read, and whose
    record has the family AF_INET; in every other case the address it
    returns is empty. *)
Theorem getOriginalAddr_errors (c : conn R P) :
  match getOriginalAddr ipv6_text c with
  | (addr, None) =>
      exists multiaddr, asFile c = Some (inr multiaddr)
        /\ nth 0 multiaddr Byte.x00 = Byte.x02
        /\ nth 1 multiaddr Byte.x00 = Byte.x00
  | (addr, Some err) =>
      addr = ""
      /\ (asFile c = None /\ err = "not a TCPConn"
          \/ asFile c = Some (inl err)
          \/ exists multiaddr, asFile c = Some (inr multiaddr)
               /\ (nth 0 multiaddr Byte.x00 <> Byte.x02
                   \/ nth 1 multiaddr Byte.x00 <> Byte.x00)
               /\ err = "unrecognized address family")
  end.
Proof.
  unfold getOriginalAddr. destruct (asFile c) as [[err|m]|]; cbv iota beta.
  - split; [done|]. right. by left.
  - unfold byteAt, AF_INET.
    destruct (Nat.eqb_spec (Byte.to_nat (nth 0 m Byte.x00)
                            + 256 * Byte.to_nat (nth 1 m Byte.x00)) 2) as [E|E].
    + cbv iota beta. exists m. split; [done|].
      pose proof (Byte.to_nat_bounded (nth 0 m Byte.x00)).
      pose proof (Byte.to_nat_bounded (nth 1 m Byte.x00)).
      split.
      * pose proof (Byte.of_to_nat (nth 0 m Byte.x00)) as E0.
        replace (Byte.to_nat (nth 0 m Byte.x00)) with 2 in E0 by lia.
        change (Byte.of_nat 2) with (Some Byte.x02) in E0. congruence.
      * pose proof (Byte.of_to_nat (nth 1 m Byte.x00)) as E1.
        replace (Byte.to_nat (nth 1 m Byte.x00)) with 0 in E1 by lia.
        change (Byte.of_nat 0) with (Some Byte.x00) in E1. congruence.
    + cbv iota beta. split; [done|]. right. right. exists m. split; [done|]. split; [|done].
      destruct (Byte.byte_eq_dec (nth 0 m Byte.x00) Byte.x02) as [E0|E0];
        [|by left].
      destruct (Byte.byte_eq_dec (nth 1 m Byte.x00) Byte.x00) as [E1|E1];
        [|by right].
      rewrite E0, E1 in E. by destruct E.
  - split; [done|]. by left.
Qed.
End OriginalAddrFacts.

(** ** The accept loop of [New] *)

Lemma tcpConn_Read_le (c : tcpConn) (k : nat) :
  length (snd (fst (let '(r, d, e) := segConn_Read (tcp_segs c) k in
                    (mkTCP r (tcp_dst c), d, e)))) <= k.
Proof.
  pose proof (segConn_Read_le (tcp_segs c) k) as Hle.
  by destruct (segConn_Read (tcp_segs c) k) as [[r d] e].
Qed.

#[export] Instance tcpConn_NetConn : NetConn tcpConn :=
  {| Conn_Read := fun c k =>
       let '(r, d, e) := segConn_Read (tcp_segs c) k in
       (mkTCP r (tcp_dst c), d, e);
     Conn_Read_le := tcpConn_Read_le |}.

(** A [*net.TCPConn] has no method [OriginalDestination]. *)
#[export] Instance tcpConn_Proxied : ProxiedConnection tcpConn := fun _ => None.


Section AcceptLoopFacts.
Context {R : Type} `{NetConn R} `{ProxiedConnection R} `{FileConn R}.
Variable ipv6_text : IP -> string.
Variable Dial : string -> error.





(** X11.  Once the plaintext error channel holds 128 errors, an error of
    the wrapped listener's [Accept] stops the loop of [New], however many
    turns it is given: the loop waits in its send, the error is queued on
    neither channel, and what the wrapped listener holds stays unaccepted. *)
Theorem New_accept_loop_stalls (err : string) (rest : list (R + string))
    (w : World R (peekConn R)) (e : MuxErrs) (n : NetLog R (peekConn R))
    (k : nat) :
  length (nonTLSErrs e) = chanSize ->
  New_acceptTurns ipv6_text Dial (S k)
    (mkMux (New_hlisten (inr err :: rest)) w e n)
  = Return (mkMux (New_hlisten rest) w e n, LoopWaits).
Proof.
  intros Hfull. cbn [New_acceptTurns]. unfold New_acceptTurn.
  cbn [hlisten world errChans net].
  change (Accept (New_hlisten (inr err :: rest)) w)
    with (Return (Failed (R:=R) err,
                  New_hlisten (R:=R) (P:=peekConn R) rest, w)).
  cbn [bind]. unfold sendErr, chan_send. rewrite Hfull.
  by rewrite Nat.ltb_irrefl.
Qed.
End AcceptLoopFacts.

(** A connection redirected from 10.0.0.1:8080, and the accept loop of
    [New] over connections of this kind. *)
Definition redirected : tcpConn :=
  mkTCP [bytes "GET / HTTP/1.1"]
        (inr [Byte.x02; Byte.x00; Byte.x1f; Byte.x90;
               Byte.x0a; Byte.x00; Byte.x00; Byte.x01;
               Byte.x00; Byte.x00; Byte.x00; Byte.x00;
               Byte.x00; Byte.x00; Byte.x00; Byte.x00]).

Definition idle_state (pending : list (tcpConn + string)) (e : MuxErrs)
  : MuxState tcpConn :=
  mkMux (New_hlisten pending) (mkWorld [] [] [] []) e (mkNetLog [] [] []).

(** [getOriginalAddr_AF_INET] on a connection not wrapped for peeking. *)
Lemma getOriginalAddr_AF_INET_witness :
  getOriginalAddr (fun _ => "?")
    (Raw redirected : conn tcpConn (peekConn tcpConn))
  = ("10.0.0.1:8080", None).
Proof.
  exact (getOriginalAddr_AF_INET (fun _ => "?")
           (Raw redirected : conn tcpConn (peekConn tcpConn)) _
           Byte.x02 Byte.x00 Byte.x1f Byte.x90
           Byte.x0a Byte.x00 Byte.x00 Byte.x01 (replicate 8 Byte.x00)
           eq_refl eq_refl eq_refl eq_refl).
Defined.


(** [New_accept_loop_stalls] after 128 reported errors. *)
Lemma New_accept_loop_stalls_witness :
  New_acceptTurns (fun _ => "?") (fun _ => None) 3
    (idle_state [inr "accept: too many open files"; inl redirected]
                (mkMuxErrs (replicate 128 "not a TCPConn")
                           (replicate 128 "not a TCPConn")))
  = Return (idle_state [inl redirected]
              (mkMuxErrs (replicate 128 "not a TCPConn")
                         (replicate 128 "not a TCPConn")),
            LoopWaits).
Proof.
  exact (New_accept_loop_stalls (fun _ => "?") (fun _ => None)
           "accept: too many open files" [inl redirected]
           (mkWorld [] [] [] [])
           (mkMuxErrs (replicate 128 "not a TCPConn")
                      (replicate 128 "not a TCPConn"))
           (mkNetLog [] [] []) 2 eq_refl).
Defined.

(** ** The error of [Close] *)

Section CloseMore.
Context {L : Type} `{NetListener L}.

(** X12.  The error of the wrapped listener's [Close] is returned by the
    first [Close] on either listener of [New] and by no later one: every
    later [Close], on either listener, returns nil. *)
Theorem Close_error_reported_once (listener : L) (d d' : derived)
    (ds : list derived) :
  snd (Close d (New_shared listener)) = snd (Listener_Close listener)
  /\ snd (Close d' (closeAll (d :: ds) (New_shared listener))) = None.
Proof.
  split.
  - destruct d; unfold Close, tlsMuxListener_Close, Once_Do, New_shared;
      cbn [closer done shared_Listener closeCalls];
      by destruct (Listener_Close listener).
  - change (closeAll (d :: ds) (New_shared listener))
      with (closeAll ds (fst (Close d (New_shared listener)))).
    rewrite (Close_first d (New_shared listener)) by done.
    rewrite closeAll_done by done. by rewrite Close_done.
Qed.
End CloseMore.

(** ** The HAR log *)

(** Writing [data] just after the first [m] elements. *)
Lemma take_after_write_all {A} (arr1 : list A) (m : nat) (data : list A) :
  m + length data <= length arr1 ->
  take (m + length data)
       (take m arr1 ++ data ++ drop (m + length data) arr1)%list
  = (take m arr1 ++ data)%list
  /\ length (take m arr1 ++ data ++ drop (m + length data) arr1)%list
     = length arr1.
Proof.
  intros Hm. split.
  - rewrite app_assoc. apply take_app_length'.
    rewrite length_app, length_take_le by lia. lia.
  - rewrite !length_app, length_take_le, length_drop by lia. lia.
Qed.

(** X13.  [addEntry] behaves as [append] does for a log whose entries fit
    their capacity: given entries the first of which has a captured request,
    the log afterwards holds the old entries followed by all the new ones,
    in order.  The backing array is kept while the new length fits it and is
    otherwise replaced by one of capacity [(n + 1) * 2] for the new length
    [n]; version, creator and pages are untouched. *)
Theorem addEntry_appends (log : HarLog.t) (e0 : HarEntry.t)
    (rest : list HarEntry.t) (r : HarRequest.t) :
  slice_ok (HarLog.Entries log) ->
  HarEntry.Request e0 = Some r ->
  exists log',
    addEntry log (e0 :: rest) = Return log'
    /\ elems (HarLog.Entries log')
       = (elems (HarLog.Entries log) ++ e0 :: rest)%list
    /\ len (HarLog.Entries log')
       = len (HarLog.Entries log) + length (e0 :: rest)
    /\ cap (HarLog.Entries log')
       = (let n := len (HarLog.Entries log) + length (e0 :: rest) in
          if cap (HarLog.Entries log) <? n then (n + 1) * 2
          else cap (HarLog.Entries log))
    /\ HarLog.Version log' = HarLog.Version log
    /\ HarLog.Creator log' = HarLog.Creator log
    /\ HarLog.Pages log' = HarLog.Pages log.
Proof.
  unfold slice_ok. intros Hok Hreq. unfold addEntry.
  set (entry := e0 :: rest).
  set (entries := HarLog.Entries log) in *.
  set (m := len entries) in *.
  set (n := m + length entry).
  set (entries1 := if cap entries <? n then _ else entries).
  assert (H1 : n <= cap entries1
               /\ take m (arr entries1) = elems entries
               /\ cap entries1
                  = if cap entries <? n then (n + 1) * 2 else cap entries).
  { subst entries1. destruct (cap entries <? n) eqn:E.
    - unfold copy, make, cap, elems. cbn [fst arr len]. fold m.
      assert (Hlt : length (take m (arr entries)) = m)
        by (apply length_take_le; unfold cap in Hok; lia).
      rewrite Hlt.
      replace (Nat.min ((n + 1) * 2) m) with m by lia.
      rewrite take_take. replace (Nat.min m m) with m by lia.
      assert (Hlen : length (take m (arr entries)
                             ++ drop m (replicate ((n + 1) * 2) HarEntry.zero))%list
                     = (n + 1) * 2)
        by (rewrite length_app, Hlt, length_drop, length_replicate; lia).
      split; [lia|]. split; [|done].
      apply take_app_length'. by rewrite Hlt.
    - apply Nat.ltb_ge in E. split; [lia | done]. }
  destruct H1 as (Hcap & Htake & Hcap1).
  unfold reslice. cbn [Nat.leb].
  replace (n <=? cap entries1) with true by (symmetry; apply Nat.leb_le; lia).
  cbn [andb bind]. subst entry. cbv iota. rewrite Hreq.
  eexists. split; [reflexivity|].
  cbn [HarLog.Entries HarLog.Version HarLog.Creator HarLog.Pages].
  unfold write_at, elems, cap. cbn [arr len].
  rewrite drop_0, Nat.sub_0_r.
  replace (n - m) with (length (e0 :: rest)) by (subst n; lia).
  rewrite firstn_all. unfold cap in Hcap, Hcap1.
  destruct (take_after_write_all (arr entries1) m (e0 :: rest)) as [Ht Hl];
    [subst n; lia|].
  fold n in Ht, Hl |- *. rewrite Ht, Hl, Htake. by repeat split.
Qed.

(** X14.  [addEntry] returns only when it is given at least one entry and
    the first one has a captured request: with no entry, or with a first
    entry whose request is nil, its closing log line panics. *)
Theorem addEntry_returns_only_with_request (log log' : HarLog.t)
    (entry : list HarEntry.t) :
  addEntry log entry = Return log' ->
  exists e0 rest r, entry = e0 :: rest /\ HarEntry.Request e0 = Some r.
Proof.
  unfold addEntry. destruct (reslice _ 0 _) as [s|msg]; cbn [bind]; [|done].
  destruct entry as [|e0 rest]; [done|].
  destruct (HarEntry.Request e0) as [r|] eqn:Hreq; [|done].
  intros _. by exists e0, rest, r.
Qed.

(** ** The recording round-tripper, continued *)

Section RoundTripMore.
Variable transport : Request.t -> Response.t + string.
Variable clock : nat -> Z.
Variables readCookies readSetCookies : lib.Header -> list Cookie.t.
Variable URL_String : URL.t -> string.
Variable URL_Query : URL.t -> gmap string (list string).
Variable gzip_reader : string -> nat + (string * nat).
Variable flate_reader : string -> string * nat.
Variable SplitHostPort : string -> option (string * string).
Variable ParseIP : string -> option IP.
Variable LookupIP : string -> option (list IP).
Variable ipv6_text : IP -> string.

Local Abbreviation RoundTrip' :=
  (RoundTrip transport clock readCookies readSetCookies URL_String URL_Query
             gzip_reader flate_reader SplitHostPort ParseIP LookupIP ipv6_text).
Local Abbreviation parseRequest' := (parseRequest readCookies URL_String URL_Query).
Local Abbreviation parseResponse' :=
  (parseResponse readSetCookies gzip_reader flate_reader).
Local Abbreviation fillIpAddress' :=
  (fillIpAddress SplitHostPort ParseIP LookupIP ipv6_text).

(** The host [fillIpAddress] looks at. *)
Definition hostOf (req : Request.t) : string :=
  match SplitHostPort (URL.Host (Request.URL req)) with
  | Some (host, _) => host
  | None => URL.Host (Request.URL req)
  end.

(** The entry [RoundTrip] has built when it reaches [addEntry]. *)
Definition recordedEntry (req : Request.t) (resp : Response.t) : HarEntry.t :=
  fillIpAddress' (forwardedRequest req)
    {| HarEntry.ServerIPAddress := "";
       HarEntry.PageRef := "";
       HarEntry.StartedDateTime := clock 0;
       HarEntry.Time := ms (clock 4 - clock 0);
       HarEntry.Request := fst (parseRequest' (Some (forwardedRequest req)));
       HarEntry.Response := fst (parseResponse' resp);
       HarEntry.Timings :=
         {| HarTimings.Blocked := 0; HarTimings.Dns := 0; HarTimings.Ssl := 0;
            HarTimings.Connect := 0; HarTimings.Send := ms (clock 1 - clock 0);
            HarTimings.Wait := 0; HarTimings.Receive := ms (clock 3 - clock 2) |};
       HarEntry.ServerIpAddress := "";
       HarEntry.Connection := "" |}.

(** [fillIpAddress] assigns to [ServerIpAddress] and to nothing else. *)
Lemma fillIpAddress_frame (req : Request.t) (e : HarEntry.t) :
  fillIpAddress' req e
  = withServerIpAddress e (HarEntry.ServerIpAddress (fillIpAddress' req e)).
Proof.
  unfold fillIpAddress. destruct (SplitHostPort _) as [[host port]|];
    destruct (ParseIP _); destruct (LookupIP _) as [ips|];
    try destruct (List.find _ ips); by destruct e.
Qed.

(** [parseResponse] assigns to the body of the response and to nothing else. *)
Lemma parseResponse_frame (resp : Response.t) :
  snd (parseResponse' resp)
  = withBody resp (Response.Body (snd (parseResponse' resp))).
Proof.
  unfold parseResponse. destruct (Response.Body resp) as [raw|] eqn:Hb.
  - destruct (String.eqb _ "gzip").
    + by destruct (gzip_reader raw) as [used|[text used]].
    + destruct (String.eqb _ "deflate").
      * by destruct (flate_reader raw) as [text used].
      * done.
  - cbn [snd]. destruct resp; cbn in *; by subst.
Qed.

(** A successful round trip with a HAR file configured, step by step. *)
Lemma RoundTrip_success (m : HTTPTransport) (req : Request.t)
    (resp : Response.t) :
  transport (forwardedRequest req) = inl resp ->
  String.eqb (harFile m) "" = false ->
  slice_ok (HarLog.Entries (Har.Log (Har_ m))) ->
  exists r,
    RoundTrip' m req = Return r
    /\ har_entries (rt_m r) = (har_entries m ++ [recordedEntry req resp])%list
    /\ slice_ok (HarLog.Entries (Har.Log (Har_ (rt_m r))))
    /\ harFile (rt_m r) = harFile m
    /\ rt_written r = Some (harFile m, Har_ (rt_m r))
    /\ rt_resp r
       = withHeader (snd (parseResponse' resp))
           (cspReplaced (Response.Header (snd (parseResponse' resp)))).
Proof.
  intros Hup Hfile Hok.
  destruct (parseRequest_Some readCookies URL_String URL_Query
              (forwardedRequest req)) as [hreq Hp].
  assert (Hreq : HarEntry.Request (recordedEntry req resp) = Some hreq).
  { unfold recordedEntry. rewrite fillIpAddress_frame.
    cbn [withServerIpAddress HarEntry.Request]. by rewrite Hp. }
  destruct (addEntry_one _ _ hreq Hok Hreq) as (log' & Hadd & He & Hok' & _).
  unfold RoundTrip.
  destruct canonical_keys as (KA & _). unfold Header_Set. rewrite KA.
  fold (forwardedRequest req).
  unfold recordedEntry in Hadd. rewrite Hp in Hadd |- *.
  unfold default. cbn [from_option id]. rewrite Hup.
  destruct (parseResponse' resp) as [hresp resp1] eqn:Hresp.
  cbn [fst snd] in Hadd |- *. rewrite Hfile. cbn [negb].
  rewrite Hadd. cbn [bind fst snd].
  eexists. split; [reflexivity|].
  cbn [rt_m rt_written rt_resp Har_ Har.Log harFile]. unfold har_entries at 1.
  cbn [Har_ Har.Log]. rewrite He. unfold recordedEntry. rewrite Hp, Hresp.
  by repeat split.
Qed.

(** What [parseResponse] records of the response it was given. *)
Lemma parseResponse_recorded (resp : Response.t) (hresp : HarResponse.t) :
  fst (parseResponse' resp) = Some hresp ->
  HarResponse.Headers hresp = parseStringArrMap (Response.Header resp)
  /\ HarResponse.HeadersSize hresp = calcHeaderSize (Response.Header resp)
  /\ HarResponse.Status hresp = Response.StatusCode resp
  /\ HarResponse.StatusText hresp = Response.Status resp
  /\ HarResponse.HttpVersion hresp = Response.Proto resp
  /\ HarResponse.BodySize hresp = Response.ContentLength resp.
Proof.
  unfold parseResponse. destruct (Response.Body resp) as [raw|].
  - destruct (String.eqb _ "gzip").
    + destruct (gzip_reader raw) as [used|[text used]]; cbn [fst];
        [done | by intros [= <-]].
    + destruct (String.eqb _ "deflate").
      * destruct (flate_reader raw) as [text used]. by intros [= <-].
      * by intros [= <-].
  - by intros [= <-].
Qed.

(** X15.  The HAR entry of a successful round trip records the response as
    the upstream sent it: status, protocol, length, and the headers before
    the policy headers are replaced, while the response handed back carries
    the replaced policy. *)
Theorem har_records_upstream_headers (m : HTTPTransport) (req : Request.t)
    (resp : Response.t) (hresp : HarResponse.t) :
  transport (forwardedRequest req) = inl resp ->
  String.eqb (harFile m) "" = false ->
  slice_ok (HarLog.Entries (Har.Log (Har_ m))) ->
  fst (parseResponse' resp) = Some hresp ->
  exists r entry,
    RoundTrip' m req = Return r
    /\ har_entries (rt_m r) = (har_entries m ++ [entry])%list
    /\ HarEntry.Response entry = Some hresp
    /\ HarResponse.Headers hresp = parseStringArrMap (Response.Header resp)
    /\ HarResponse.HeadersSize hresp = calcHeaderSize (Response.Header resp)
    /\ HarResponse.Status hresp = Response.StatusCode resp
    /\ HarResponse.StatusText hresp = Response.Status resp
    /\ HarResponse.HttpVersion hresp = Response.Proto resp
    /\ HarResponse.BodySize hresp = Response.ContentLength resp
    /\ Header_Values (Response.Header (rt_resp r)) "Content-Security-Policy"
       = [contentSecurityPolicy].
Proof.
  intros Hup Hfile Hok Hh.
  destruct (RoundTrip_success m req resp Hup Hfile Hok)
    as (r & Hr & He & _ & _ & _ & Hresp).
  destruct (parseResponse_recorded resp hresp Hh) as (H1 & H2 & H3 & H4 & H5 & H6).
  exists r, (recordedEntry req resp). repeat split; try done.
  - unfold recordedEntry. rewrite fillIpAddress_frame.
    cbn [withServerIpAddress HarEntry.Response]. exact Hh.
  - rewrite Hresp. cbn [withHeader Response.Header].
    by destruct (cspReplaced_values
                   (Response.Header (snd (parseResponse' resp)))) as (-> & _).
Qed.

(** X16.  On success the response handed back is the upstream's in all but
    its body and the four policy headers: status, protocol, length,
    transfer encoding, the close flag and the request are the upstream's,
    and every header stored under another key is as the upstream sent it. *)
Theorem response_passed_through (m : HTTPTransport) (req : Request.t)
    (resp : Response.t) (k : string) :
  transport (forwardedRequest req) = inl resp ->
  k <> "Webkit-Csp" -> k <> "Content-Security-Policy" ->
  k <> "X-Webkit-Csp" -> k <> "X-Content-Security-Policy" ->
  exists r,
    RoundTrip' m req = Return r
    /\ rt_err r = None
    /\ Response.StatusCode (rt_resp r) = Response.StatusCode resp
    /\ Response.Status (rt_resp r) = Response.Status resp
    /\ Response.Proto (rt_resp r) = Response.Proto resp
    /\ Response.ProtoMajor (rt_resp r) = Response.ProtoMajor resp
    /\ Response.ProtoMinor (rt_resp r) = Response.ProtoMinor resp
    /\ Response.ContentLength (rt_resp r) = Response.ContentLength resp
    /\ Response.TransferEncoding (rt_resp r) = Response.TransferEncoding resp
    /\ Response.Close (rt_resp r) = Response.Close resp
    /\ Response.Request (rt_resp r) = Response.Request resp
    /\ Response.Header (rt_resp r) !! k = Response.Header resp !! k.
Proof.
  intros Hup K1 K2 K3 K4.
  destruct (RoundTrip_cases transport clock readCookies readSetCookies
              URL_String URL_Query gzip_reader flate_reader SplitHostPort
              ParseIP LookupIP ipv6_text m req) as (r & Hr & Herr & _ & Hc).
  rewrite Hup in Hc. destruct Hc as (Hresp & _).
  exists r. split; [done|]. split; [done|]. rewrite Hresp.
  rewrite (parseResponse_frame resp).
  cbn [withHeader withBody Response.StatusCode Response.Status Response.Proto
       Response.ProtoMajor Response.ProtoMinor Response.ContentLength
       Response.TransferEncoding Response.Close Response.Request
       Response.Header].
  repeat split; try done. by apply cspReplaced_others.
Qed.


(** X18.  [RoundTrip] rewrites the HAR file exactly when a HAR file is
    configured and the upstream answered, and then with the whole log it
    holds afterwards, under the configured name; in every other case it
    writes nothing and its log is the one it had. *)
Theorem har_file_written_exactly_on_recorded_success (m : HTTPTransport)
    (req : Request.t) :
  exists r,
    RoundTrip' m req = Return r
    /\ ((rt_written r = Some (harFile m, Har_ (rt_m r))
         /\ harFile m <> ""
         /\ exists resp, transport (forwardedRequest req) = inl resp)
        \/ (rt_written r = None /\ rt_m r = m
            /\ (harFile m = ""
                \/ exists err, transport (forwardedRequest req) = inr err))).
Proof.
  destruct (RoundTrip_cases transport clock readCookies readSetCookies
              URL_String URL_Query gzip_reader flate_reader SplitHostPort
              ParseIP LookupIP ipv6_text m req) as (r & Hr & _ & _ & Hc).
  exists r. split; [done|].
  destruct (transport (forwardedRequest req)) as [resp|err].
  - destruct Hc as (_ & _ & Hc).
    destruct (String.eqb_spec (harFile m) "") as [E|E].
    + right. destruct Hc as (-> & ->). repeat split; try done. by left.
    + left. destruct Hc as (entry & hreq & _ & _ & _ & _ & ->).
      repeat split; try done. by exists resp.
  - right. destruct Hc as (_ & -> & ->). repeat split; try done.
    right. by exists err.
Qed.

(** X19.  The timings of a recorded entry, for a clock that does not run
    backwards: the entry starts when [RoundTrip] first looked at the clock,
    its send and receive times are not negative and together do not exceed
    its total time, and the five other timings are zero. *)
Theorem har_entry_timings (m : HTTPTransport) (req : Request.t)
    (resp : Response.t) :
  transport (forwardedRequest req) = inl resp ->
  String.eqb (harFile m) "" = false ->
  slice_ok (HarLog.Entries (Har.Log (Har_ m))) ->
  (clock 0 <= clock 1 <= clock 2)%Z -> (clock 2 <= clock 3 <= clock 4)%Z ->
  exists r entry,
    RoundTrip' m req = Return r
    /\ har_entries (rt_m r) = (har_entries m ++ [entry])%list
    /\ HarEntry.StartedDateTime entry = clock 0
    /\ (0 <= HarTimings.Send (HarEntry.Timings entry))%Z
    /\ (0 <= HarTimings.Receive (HarEntry.Timings entry))%Z
    /\ (HarTimings.Send (HarEntry.Timings entry)
        + HarTimings.Receive (HarEntry.Timings entry)
        <= HarEntry.Time entry)%Z
    /\ HarTimings.Blocked (HarEntry.Timings entry) = 0%Z
    /\ HarTimings.Dns (HarEntry.Timings entry) = 0%Z
    /\ HarTimings.Connect (HarEntry.Timings entry) = 0%Z
    /\ HarTimings.Wait (HarEntry.Timings entry) = 0%Z
    /\ HarTimings.Ssl (HarEntry.Timings entry) = 0%Z.
Proof.
  intros Hup Hfile Hok H012 H234.
  destruct (RoundTrip_success m req resp Hup Hfile Hok) as (r & Hr & He & _).
  exists r, (recordedEntry req resp). split; [done|]. split; [done|].
  unfold recordedEntry. rewrite fillIpAddress_frame.
  cbn [withServerIpAddress HarEntry.StartedDateTime HarEntry.Timings
       HarEntry.Time HarTimings.Send HarTimings.Receive HarTimings.Blocked
       HarTimings.Dns HarTimings.Connect HarTimings.Wait HarTimings.Ssl].
  unfold ms. repeat split; try done.
  - apply Z.quot_pos; lia.
  - apply Z.quot_pos; lia.
  - rewrite !Z.quot_div_nonneg by lia.
    assert (Hs : ((clock 1 - clock 0) / 1000000 + (clock 3 - clock 2) / 1000000
                  <= ((clock 1 - clock 0) + (clock 3 - clock 2)) / 1000000)%Z).
    { pose proof (Z.div_mod (clock 1 - clock 0) 1000000 ltac:(lia)) as D1.
      pose proof (Z.div_mod (clock 3 - clock 2) 1000000 ltac:(lia)) as D2.
      pose proof (Z.mod_pos_bound (clock 1 - clock 0) 1000000 ltac:(lia)).
      pose proof (Z.mod_pos_bound (clock 3 - clock 2) 1000000 ltac:(lia)).
      apply Z.div_le_lower_bound; lia. }
    etransitivity; [exact Hs|]. apply Z.div_le_mono; lia.
Qed.

(** X20.  The address field of a recorded entry.  The field of the HAR
    format, [serverIPAddress], is left empty; the address goes to the
    field [serverIpAddress]: the first address with a 4-byte form the
    resolver returns for the host, as a dotted quad; failing that, the raw
    bytes of the host when it is a literal address; failing that, nothing. *)
Theorem har_entry_server_address (m : HTTPTransport) (req : Request.t)
    (resp : Response.t) :
  transport (forwardedRequest req) = inl resp ->
  String.eqb (harFile m) "" = false ->
  slice_ok (HarLog.Entries (Har.Log (Har_ m))) ->
  exists r entry,
    RoundTrip' m req = Return r
    /\ har_entries (rt_m r) = (har_entries m ++ [entry])%list
    /\ HarEntry.ServerIPAddress entry = ""
    /\ HarEntry.ServerIpAddress entry
       = match LookupIP (hostOf (forwardedRequest req))
               ≫= List.find (fun ip => negb (is_nil (To4 ip))) with
         | Some ip4 => IP_String ipv6_text ip4
         | None =>
             match ParseIP (hostOf (forwardedRequest req)) with
             | Some ip => string_of_list_byte ip
             | None => ""
             end
         end.
Proof.
  intros Hup Hfile Hok.
  destruct (RoundTrip_success m req resp Hup Hfile Hok) as (r & Hr & He & _).
  exists r, (recordedEntry req resp). split; [done|]. split; [done|]. split.
  - unfold recordedEntry. by rewrite fillIpAddress_frame.
  - unfold recordedEntry.
    exact (fillIpAddress_cases SplitHostPort ParseIP LookupIP ipv6_text
             (forwardedRequest req) _).
Qed.

(** Serving requests one after the other with the same round-tripper. *)
Fixpoint serve (m : HTTPTransport) (reqs : list Request.t)
  : outcome HTTPTransport :=
  match reqs with
  | [] => Return m
  | req :: rest => bind (RoundTrip' m req) (fun r => serve (rt_m r) rest)
  end.

(** Whether the upstream answers a request. *)
Definition answered (req : Request.t) : bool :=
  match transport (forwardedRequest req) with
  | inl _ => true
  | inr _ => false
  end.

(** X21.  A round-tripper with a HAR file never fails to serve a sequence
    of requests, and its log grows by one entry for each request the
    upstream answered and by none for the others; without a HAR file the
    log stays as it is. *)
Theorem har_log_counts_answered_requests (m : HTTPTransport)
    (reqs : list Request.t) :
  slice_ok (HarLog.Entries (Har.Log (Har_ m))) ->
  exists m',
    serve m reqs = Return m'
    /\ harFile m' = harFile m
    /\ slice_ok (HarLog.Entries (Har.Log (Har_ m')))
    /\ length (har_entries m')
       = length (har_entries m)
         + (if String.eqb (harFile m) "" then 0
            else length (filter (fun req => answered req = true) reqs))
    /\ take (length (har_entries m)) (har_entries m') = har_entries m.
Proof.
  revert m. induction reqs as [|req rest IH]; intros m Hok.
  - exists m. cbn [serve]. repeat split; try done.
    + rewrite filter_nil. destruct (String.eqb _ _); cbn; lia.
    + apply firstn_all.
  - cbn [serve].
    destruct (RoundTrip_cases transport clock readCookies readSetCookies
                URL_String URL_Query gzip_reader flate_reader SplitHostPort
                ParseIP LookupIP ipv6_text m req) as (r & Hr & _ & _ & Hc).
    assert (Hstep : harFile (rt_m r) = harFile m
                    /\ slice_ok (HarLog.Entries (Har.Log (Har_ (rt_m r))))
                    /\ exists new,
                        har_entries (rt_m r) = (har_entries m ++ new)%list
                        /\ length new
                           = if String.eqb (harFile m) "" then 0
                             else if answered req then 1 else 0).
    { unfold answered.
      destruct (transport (forwardedRequest req)) as [resp|err] eqn:Hup.
      - destruct Hc as (_ & Hf & Hc).
        destruct (String.eqb (harFile m) "") eqn:Hfile.
        + destruct Hc as (-> & _). repeat split; try done.
          exists []. by rewrite app_nil_r.
        + destruct (RoundTrip_success m req resp Hup Hfile Hok)
            as (r' & Hr' & He & Hok' & _).
          rewrite Hr in Hr'. injection Hr' as <-.
          repeat split; try done. by eexists.
      - destruct Hc as (_ & -> & _). repeat split; try done.
        exists []. rewrite app_nil_r. by destruct (String.eqb _ _). }
    destruct Hstep as (Hf & Hok' & new & Hnew & Hlen).
    rewrite Hr. cbn [bind].
    destruct (IH (rt_m r) Hok') as (m' & Hs & Hf' & Hok'' & Hl & Ht).
    exists m'. split; [done|]. split; [congruence|]. split; [done|].
    rewrite Hf in Hl. rewrite Hnew, length_app in Hl, Ht. split.
    + rewrite Hl, Hlen, filter_cons.
      destruct (String.eqb (harFile m) ""); [lia|].
      destruct (decide (answered req = true)) as [E|E].
      * rewrite E. cbn [length]. lia.
      * apply not_true_is_false in E. rewrite E. lia.
    + assert (Htt : take (length (har_entries m))
                         (take (length (har_entries m) + length new)
                               (har_entries m'))
                    = take (length (har_entries m)) (har_entries m'))
        by (rewrite take_take; f_equal; lia).
      rewrite <- Htt, Ht. by rewrite take_app_length.
Qed.
End RoundTripMore.

(** ** The further properties on the environment above *)

Definition example_harRequest : HarRequest.t :=
  {| HarRequest.Method := "GET";
     HarRequest.Url := "http://[::1]:8080/hello";
     HarRequest.HttpVersion := "HTTP/1.1";
     HarRequest.Cookies := [];
     HarRequest.Headers := [];
     HarRequest.QueryString := [];
     HarRequest.PostData := None;
     HarRequest.BodySize := 0;
     HarRequest.HeadersSize := 0 |}.

Definition example_entry (connection : string) : HarEntry.t :=
  {| HarEntry.ServerIPAddress := "";
     HarEntry.PageRef := "";
     HarEntry.StartedDateTime := 0;
     HarEntry.Time := 0;
     HarEntry.Request := Some example_harRequest;
     HarEntry.Response := None;
     HarEntry.Timings := HarTimings.zero;
     HarEntry.ServerIpAddress := "";
     HarEntry.Connection := connection |}.

(** What [parseResponse] makes of [example_response]. *)
Definition example_harResponse : HarResponse.t :=
  {| HarResponse.Status := 200;
     HarResponse.StatusText := "200 OK";
     HarResponse.HttpVersion := "HTTP/1.1";
     HarResponse.Cookies := [];
     HarResponse.Headers := parseStringArrMap (Response.Header example_response);
     HarResponse.Content :=
       Some {| HarContent.Text := "hi";
               HarContent.Size := 2;
               HarContent.MimeType := "";
               HarContent.Compression := 0;
               HarContent.Encoding := "" |};
     HarResponse.RedirectUrl := "";
     HarResponse.BodySize := 2;
     HarResponse.HeadersSize := calcHeaderSize (Response.Header example_response) |}.

(** The upstream that answers every request but those for [/down]. *)
Definition example_flaky (req : Request.t) : Response.t + string :=
  if String.eqb (URL.Path (Request.URL req)) "/down"
  then inr "dial tcp [::1]:8080: connect: connection refused"
  else inl example_response.

Definition example_request_to (path : string) : Request.t :=
  {| Request.Method := "GET";
     Request.URL := {| URL.Scheme := "http"; URL.Host := "[::1]:8080";
                       URL.Path := path; URL.RawQuery := "" |};
     Request.Proto := "HTTP/1.1";
     Request.Header := ∅;
     Request.Body := None;
     Request.ContentLength := 0;
     Request.PostForm := ∅ |}.

(** [addEntry_appends] on the empty log and two entries. *)
Lemma addEntry_appends_witness :
  exists log',
    addEntry newHarLog [example_entry "1"; example_entry "2"] = Return log'
    /\ elems (HarLog.Entries log') = [example_entry "1"; example_entry "2"]
    /\ cap (HarLog.Entries log') = 1000.
Proof.
  destruct (addEntry_appends newHarLog (example_entry "1") [example_entry "2"]
              example_harRequest makeNewEntries_ok eq_refl)
    as (log' & Hadd & He & _ & Hc & _).
  exists log'. split; [exact Hadd|]. split; [exact He | exact Hc].
Defined.

(** [addEntry_returns_only_with_request] on a call that returns. *)
Lemma addEntry_returns_only_with_request_witness :
  exists e0 rest r,
    [example_entry "1"] = e0 :: rest /\ HarEntry.Request e0 = Some r.
Proof.
  destruct (addEntry_one newHarLog (example_entry "1")
              example_harRequest makeNewEntries_ok eq_refl)
    as (log' & Hadd & _).
  exact (addEntry_returns_only_with_request newHarLog log'
           [example_entry "1"] Hadd).
Defined.

(** [har_records_upstream_headers] on the upstream that sends
    [default-src 'self']. *)
Lemma har_records_upstream_headers_witness :
  exists r entry,
    example_RoundTrip example_up (NewHTTPTransport "proxy.har") example_request
    = Return r
    /\ har_entries (rt_m r) = [entry]
    /\ HarEntry.Response entry = Some example_harResponse
    /\ HarResponse.Headers example_harResponse
       = [ {| HarNameValuePair.Name := "Content-Security-Policy";
              HarNameValuePair.Value := "default-src 'self'" |} ]
    /\ Header_Values (Response.Header (rt_resp r)) "Content-Security-Policy"
       = [contentSecurityPolicy].
Proof.
  destruct (har_records_upstream_headers example_up example_clock
              example_cookies example_cookies example_URL_String
              example_URL_Query example_gzip example_flate
              example_SplitHostPort example_ParseIP example_LookupIP
              example_ipv6_text (NewHTTPTransport "proxy.har") example_request
              example_response example_harResponse
              eq_refl eq_refl makeNewEntries_ok eq_refl)
    as (r & entry & Hr & He & Hresp & Hh & _ & _ & _ & _ & _ & Hcsp).
  exists r, entry. split; [exact Hr|]. split; [exact He|].
  split; [exact Hresp|]. split; [reflexivity | exact Hcsp].
Defined.

(** [response_passed_through] for the header [Content-Type]. *)
Lemma response_passed_through_witness :
  exists r,
    example_RoundTrip example_up (NewHTTPTransport "") example_request = Return r
    /\ Response.StatusCode (rt_resp r) = 200%Z
    /\ Response.Header (rt_resp r) !! "Content-Type" = None.
Proof.
  destruct (response_passed_through example_up example_clock
              example_cookies example_cookies example_URL_String
              example_URL_Query example_gzip example_flate
              example_SplitHostPort example_ParseIP example_LookupIP
              example_ipv6_text (NewHTTPTransport "") example_request
              example_response "Content-Type" eq_refl)
    as (r & Hr & _ & Hs & _ & _ & _ & _ & _ & _ & _ & _ & Hh);
    try discriminate.
  exists r. split; [exact Hr|]. split; [exact Hs | exact Hh].
Defined.


(** [har_entry_timings] on the clock that advances by a millisecond each
    time it is looked at. *)
Lemma har_entry_timings_witness :
  exists r entry,
    example_RoundTrip example_up (NewHTTPTransport "proxy.har") example_request
    = Return r
    /\ har_entries (rt_m r) = [entry]
    /\ (HarTimings.Send (HarEntry.Timings entry)
        + HarTimings.Receive (HarEntry.Timings entry)
        <= HarEntry.Time entry)%Z.
Proof.
  assert (H012 : (example_clock 0 <= example_clock 1 <= example_clock 2)%Z)
    by (unfold example_clock; lia).
  assert (H234 : (example_clock 2 <= example_clock 3 <= example_clock 4)%Z)
    by (unfold example_clock; lia).
  destruct (har_entry_timings example_up example_clock
              example_cookies example_cookies example_URL_String
              example_URL_Query example_gzip example_flate
              example_SplitHostPort example_ParseIP example_LookupIP
              example_ipv6_text (NewHTTPTransport "proxy.har") example_request
              example_response eq_refl eq_refl makeNewEntries_ok H012 H234)
    as (r & entry & Hr & He & _ & _ & _ & Ht & _).
  exists r, entry. split; [exact Hr|]. split; [exact He | exact Ht].
Defined.

(** [har_entry_server_address] for the host [::1], which resolves to no
    address with a 4-byte form. *)
Lemma har_entry_server_address_witness :
  exists r entry,
    example_RoundTrip example_up (NewHTTPTransport "proxy.har") example_request
    = Return r
    /\ har_entries (rt_m r) = [entry]
    /\ HarEntry.ServerIPAddress entry = ""
    /\ HarEntry.ServerIpAddress entry = string_of_list_byte loopback6.
Proof.
  destruct (har_entry_server_address example_up example_clock
              example_cookies example_cookies example_URL_String
              example_URL_Query example_gzip example_flate
              example_SplitHostPort example_ParseIP example_LookupIP
              example_ipv6_text (NewHTTPTransport "proxy.har") example_request
              example_response eq_refl eq_refl makeNewEntries_ok)
    as (r & entry & Hr & He & H0 & H1).
  exists r, entry. split; [exact Hr|]. split; [exact He|].
  split; [exact H0 | exact H1].
Defined.

(** [har_log_counts_answered_requests] on three requests, the second of
    which the upstream does not answer. *)
Lemma har_log_counts_answered_requests_witness :
  exists m',
    serve example_flaky example_clock example_cookies example_cookies
          example_URL_String example_URL_Query example_gzip example_flate
          example_SplitHostPort example_ParseIP example_LookupIP
          example_ipv6_text (NewHTTPTransport "proxy.har")
          [example_request_to "/a"; example_request_to "/down";
           example_request_to "/b"]
    = Return m'
    /\ length (har_entries m') = 2.
Proof.
  destruct (har_log_counts_answered_requests example_flaky example_clock
              example_cookies example_cookies example_URL_String
              example_URL_Query example_gzip example_flate
              example_SplitHostPort example_ParseIP example_LookupIP
              example_ipv6_text (NewHTTPTransport "proxy.har")
              [example_request_to "/a"; example_request_to "/down";
               example_request_to "/b"] makeNewEntries_ok)
    as (m' & Hs & _ & _ & Hl & _).
  exists m'. split; [exact Hs | exact Hl].
Defined.

(** ** The classifiers of [New] over a connection whose [Peek] shows bytes *)

Lemma if_same {A} (b : bool) (x : A) : (if b then x else x) = x.
Proof. by destruct b. Qed.

Section ClassifierMore.
Context {R P : Type} `{PeekConn P} `{ProxiedConnection R} `{ProxiedConnection P}.

(** [data[:size]] as the first pass of a pattern middleware hands it to
    [Peek]. *)
Definition firstPeek (size : nat) : slice byte :=
  mkSlice (arr (make Byte.x00 8 8)) size false.

(** One pass of [peekLoop] with [timeout = 0]. *)
Lemma peekLoop_once (size : nat) (ticks : list Z) (p p' : P)
    (b' : slice byte) (n : nat) (e : error) (deadline : Z) :
  0 < size ->
  Peek p (firstPeek size) = (p', b', n, e) ->
  peekLoop 0 deadline size ticks p (make Byte.x00 8 8) 0 None
  = (p', mkSlice (arr b') 8 false, n, e, ticks).
Proof.
  intros Hsize Hpeek. destruct ticks; cbn [peekLoop is_nil];
    (replace (0 <? size) with true by (symmetry; apply Nat.ltb_lt; lia));
    cbn [andb]; fold (firstPeek size); by rewrite Hpeek.
Qed.

(** X22.  When the first [Peek], of three bytes, shows at least three
    bytes and what it left in the buffer matches the TLS pattern, the chain
    of [New] sends the connection to the TLS channel and to nothing else,
    and [Accept] goes on to the next connection. *)
Theorem tls_hello_goes_to_tls_channel (p p1 : P) (b1 : slice byte)
    (n1 : nat) (e1 : error) (w : World R P) :
  Peek p (firstPeek 3) = (p1, b1, n1, e1) ->
  3 <= n1 ->
  regexp.Match tlsPattern (take 8 (arr b1)) = true ->
  exists t w',
    runMiddles (middles (New_hlisten (R:=R) (P:=P) tt)) (Peeking p) w
    = Return ((None, None), w')
    /\ tlsConns w' = (tlsConns w ++ [Pattern p1 t])%list
    /\ nonTLSConns w' = nonTLSConns w
    /\ forwards w' = forwards w.
Proof.
  intros Hpeek Hn Hm.
  destruct (New_hlisten_middles (R:=R) (P:=P) tt) as [-> _].
  cbn [runMiddles]. unfold patternMiddleware at 1.
  pose proof (time_Now_same_chans w) as (Ht & Hnt & Hf).
  destruct (time_Now w) as [t w0]. cbn [snd] in Ht, Hnt, Hf. cbn [bind].
  cbn [patternLoop].
  change (cap (make Byte.x00 8 8) <? 3) with false. cbv iota.
  rewrite (peekLoop_once 3 (clock w0) p p1 b1 n1 e1 _ ltac:(lia) Hpeek).
  replace (n1 <? 3) with false by (symmetry; apply Nat.ltb_ge; lia).
  unfold elems. cbn [arr len]. rewrite Hm. unfold sendTLS. cbn [bind].
  exists t. eexists. split; [reflexivity|].
  cbn [tlsConns nonTLSConns forwards]. by rewrite Ht, Hnt, Hf.
Qed.

(** X23.  When what the first [Peek] shows is no TLS hello, and the next
    [Peek], of four bytes, shows at least four bytes and leaves a match of
    the HTTP pattern in the buffer, the chain of [New] sends the connection
    to the plaintext channel and to nothing else, and [Accept] goes on to
    the next connection. *)
Theorem http_request_goes_to_plaintext_channel (p p1 p2 : P)
    (b1 b2 : slice byte) (n1 n2 : nat) (e1 e2 : error) (w : World R P) :
  Peek p (firstPeek 3) = (p1, b1, n1, e1) ->
  regexp.Match tlsPattern (take 8 (arr b1)) = false ->
  Peek p1 (firstPeek 4) = (p2, b2, n2, e2) ->
  4 <= n2 ->
  regexp.Match httpPattern (take 8 (arr b2)) = true ->
  exists t w',
    runMiddles (middles (New_hlisten (R:=R) (P:=P) tt)) (Peeking p) w
    = Return ((None, None), w')
    /\ nonTLSConns w' = (nonTLSConns w ++ [Pattern p2 t])%list
    /\ tlsConns w' = tlsConns w
    /\ forwards w' = forwards w.
Proof.
  intros Hpeek1 Hm1 Hpeek2 Hn2 Hm2.
  destruct (New_hlisten_middles (R:=R) (P:=P) tt) as [-> _].
  cbn [runMiddles]. unfold patternMiddleware at 1.
  pose proof (time_Now_same_chans w) as (Ht & Hnt & Hf).
  destruct (time_Now w) as [t w0]. cbn [snd] in Ht, Hnt, Hf. cbn [bind].
  cbn [patternLoop].
  change (cap (make Byte.x00 8 8) <? 3) with false. cbv iota.
  rewrite (peekLoop_once 3 (clock w0) p p1 b1 n1 e1 _ ltac:(lia) Hpeek1).
  unfold elems at 1. cbn [arr len]. rewrite Hm1.
  assert (Hw0 : {| tlsConns := tlsConns w0; nonTLSConns := nonTLSConns w0;
                   forwards := forwards w0; clock := clock w0 |} = w0)
    by (by destruct w0).
  rewrite Hw0.
  rewrite if_same. cbn [bind]. unfold patternMiddleware at 1. cbn [bind].
  cbn [patternLoop].
  change (cap (make Byte.x00 8 8) <? 4) with false. cbv iota.
  rewrite (peekLoop_once 4 (clock w0) p1 p2 b2 n2 e2 _ ltac:(lia) Hpeek2).
  replace (n2 <? 4) with false by (symmetry; apply Nat.ltb_ge; lia).
  unfold elems. cbn [arr len]. rewrite Hm2. unfold sendNonTLS. cbn [bind].
  exists t. eexists. split; [reflexivity|].
  cbn [tlsConns nonTLSConns forwards]. by rewrite Ht, Hnt, Hf.
Qed.
End ClassifierMore.

(** A [PeekConn] that shows the bytes it has buffered and keeps them. *)
Record bufConn : Type := mkBuf { buffered : list byte }.

#[export] Instance bufConn_PeekConn : PeekConn bufConn :=
  {| Peek := fun p b =>
       let n := Nat.min (len b) (length (buffered p)) in
       (p, write_at b 0 (take n (buffered p)), n, None) |}.

#[export] Instance bufConn_Proxied : ProxiedConnection bufConn := fun _ => None.

(** [tls_hello_goes_to_tls_channel] on a buffered TLS 1.0 client hello. *)
Lemma tls_hello_goes_to_tls_channel_witness :
  exists t w',
    runMiddles (middles (New_hlisten (R:=segConn) (P:=bufConn) tt))
               (Peeking (mkBuf [Byte.x16; Byte.x03; Byte.x01; Byte.x00; Byte.xa5]))
               (mkWorld [] [] [] [])
    = Return ((None, None), w')
    /\ tlsConns w'
       = [Pattern (mkBuf [Byte.x16; Byte.x03; Byte.x01; Byte.x00; Byte.xa5]) t].
Proof.
  assert (Hn : 3 <= 3) by lia.
  assert (Hpeek :
            Peek (mkBuf [Byte.x16; Byte.x03; Byte.x01; Byte.x00; Byte.xa5])
                 (firstPeek 3)
            = (mkBuf [Byte.x16; Byte.x03; Byte.x01; Byte.x00; Byte.xa5],
               write_at (firstPeek 3) 0 [Byte.x16; Byte.x03; Byte.x01],
               3, None)) by reflexivity.
  destruct (tls_hello_goes_to_tls_channel (R:=segConn)
              (mkBuf [Byte.x16; Byte.x03; Byte.x01; Byte.x00; Byte.xa5])
              (mkBuf [Byte.x16; Byte.x03; Byte.x01; Byte.x00; Byte.xa5])
              (write_at (firstPeek 3) 0 [Byte.x16; Byte.x03; Byte.x01])
              3 None (mkWorld [] [] [] []) Hpeek Hn eq_refl)
    as (t & w' & Hr & Ht & _).
  exists t, w'. split; [exact Hr | exact Ht].
Defined.

(** [http_request_goes_to_plaintext_channel] on a buffered POST request. *)
Lemma http_request_goes_to_plaintext_channel_witness :
  exists t w',
    runMiddles (middles (New_hlisten (R:=segConn) (P:=bufConn) tt))
               (Peeking (mkBuf (bytes "POST /rpc HTTP/1.1")))
               (mkWorld [] [] [] [])
    = Return ((None, None), w')
    /\ nonTLSConns w' = [Pattern (mkBuf (bytes "POST /rpc HTTP/1.1")) t].
Proof.
  assert (Hn : 4 <= 4) by lia.
  assert (Hpeek1 :
            Peek (mkBuf (bytes "POST /rpc HTTP/1.1")) (firstPeek 3)
            = (mkBuf (bytes "POST /rpc HTTP/1.1"),
               write_at (firstPeek 3) 0 (bytes "POS"), 3, None))
    by reflexivity.
  assert (Hpeek2 :
            Peek (mkBuf (bytes "POST /rpc HTTP/1.1")) (firstPeek 4)
            = (mkBuf (bytes "POST /rpc HTTP/1.1"),
               write_at (firstPeek 4) 0 (bytes "POST"), 4, None))
    by reflexivity.
  destruct (http_request_goes_to_plaintext_channel (R:=segConn)
              (mkBuf (bytes "POST /rpc HTTP/1.1"))
              (mkBuf (bytes "POST /rpc HTTP/1.1"))
              (mkBuf (bytes "POST /rpc HTTP/1.1"))
              (write_at (firstPeek 3) 0 (bytes "POS"))
              (write_at (firstPeek 4) 0 (bytes "POST"))
              3 4 None None (mkWorld [] [] [] [])
              Hpeek1 eq_refl Hpeek2 Hn eq_refl)
    as (t & w' & Hr & Ht & _).
  exists t, w'. split; [exact Hr | exact Ht].
Defined.

(** ** What is recorded of a request *)

Section ParseRequestMore.
Variable readCookies : lib.Header -> list Cookie.t.
Variable URL_String : URL.t -> string.
Variable URL_Query : URL.t -> gmap string (list string).

(** X24.  [parseRequest] records the body and the form of a request exactly
    when its method is POST or PUT, spelled in upper case, and hands the
    request back as it was; the text recorded is the body, empty for a nil
    body, with one parameter for each key of the form. *)
Theorem parseRequest_postData (req : Request.t) :
  exists hreq,
    parseRequest readCookies URL_String URL_Query (Some req)
    = (Some hreq, Some req)
    /\ HarRequest.Method hreq = Request.Method req
    /\ HarRequest.BodySize hreq = Request.ContentLength req
    /\ HarRequest.HeadersSize hreq = calcHeaderSize (Request.Header req)
    /\ match HarRequest.PostData hreq with
       | None => Request.Method req <> "POST" /\ Request.Method req <> "PUT"
       | Some postData =>
           (Request.Method req = "POST" \/ Request.Method req = "PUT")
           /\ HarPostData.Text postData = default "" (Request.Body req)
           /\ HarPostData.MimeType postData
              = Header_Get (Request.Header req) "Content-Type"
           /\ length (HarPostData.Params postData) = size (Request.PostForm req)
       end.
Proof.
  unfold parseRequest, parsePostData. cbn [captureContent andb].
  destruct (String.eqb_spec (Request.Method req) "POST") as [E1|E1];
    [|destruct (String.eqb_spec (Request.Method req) "PUT") as [E2|E2]];
    cbn [orb]; eexists; (split; [reflexivity|]);
    cbn [HarRequest.Method HarRequest.BodySize HarRequest.HeadersSize
         HarRequest.PostData HarPostData.Text HarPostData.MimeType
         HarPostData.Params];
    repeat split; try done; try (by left); try (by right);
    by rewrite length_map, length_map_to_list.
Qed.
End ParseRequestMore.

(** ** The size of a header *)

(** The length of the values of one header. *)
Definition valuesSize (vs : list string) : nat :=
  foldr (fun v acc => acc + String.length v) 0 vs.

(** X25.  [calcHeaderSize] counts, for each key, the length of the key, two
    more, and the lengths of its values: adding a key to a header adds
    exactly that much, in whatever order the map is iterated. *)
Theorem calcHeaderSize_insert (header : lib.Header) (k : string)
    (vs : list string) :
  header !! k = None ->
  calcHeaderSize (<[k := vs]> header)
  = (calcHeaderSize header + Z.of_nat (String.length k + 2 + valuesSize vs))%Z.
Proof.
  intros Hk. unfold calcHeaderSize.
  set (f := fun (kv : string * list string) (headerSize : nat) =>
              headerSize + (String.length kv.1 + 2)
              + foldr (fun v acc => acc + String.length v) 0 kv.2).
  assert (Hperm : foldr f 0 (map_to_list (<[k := vs]> header))
                  = foldr f 0 ((k, vs) :: map_to_list header)).
  { apply (foldr_permutation eq f 0).
    - intros j1 a1 j2 a2 b _ _ _. unfold f. lia.
    - by apply map_to_list_insert. }
  change (foldr _ 0 (map_to_list (<[k := vs]> header)))
    with (foldr f 0 (map_to_list (<[k := vs]> header))).
  rewrite Hperm. cbn [foldr]. unfold f at 1. cbn [fst snd].
  fold (valuesSize vs). lia.
Qed.

(** [calcHeaderSize_insert] on a header with one key. *)
Lemma calcHeaderSize_insert_witness :
  calcHeaderSize (<["Accept" := ["text/html"; "*/*"]]> {[ "Host" := ["example.org"] ]})
  = (calcHeaderSize {[ "Host" := ["example.org"] ]} + 20)%Z.
Proof.
  exact (calcHeaderSize_insert {[ "Host" := ["example.org"] ]} "Accept"
           ["text/html"; "*/*"] eq_refl).
Defined.
